(** * Bounding volumes of OpenVRML 0.14.3 ([bounding_volume.cpp])

    A shallow embedding of [openvrml::bounding_sphere] and of the placeholder
    [openvrml::axis_aligned_bounding_box], followed by the properties of the
    sphere's frustum test, merge operations, point-set enclosure and
    transforms.

    The C++ code computes on [float].  The embedding is written once over an
    interface [Scalar] of the arithmetic the code uses and is read at two
    instances:
    - [binary32], IEEE 754 single precision built from [SpecFloat] (round to
      nearest even): the arithmetic of the code, in which it is run on
      concrete inputs and in which its sign and sentinel behaviour is proved;
    - [R], exact real arithmetic: the geometry that the formulas aim at, and
      that rounding lets the code miss by an ulp.
    Statements made for every [Scalar] hold in both. *)

From Stdlib Require Import ZArith List Bool Reals Lra Lia Psatz SpecFloat.
Import ListNotations.

Set Implicit Arguments.

(** ** The arithmetic interface *)

(** The operations of C++ [float] that the translation unit uses.  [of_Z]
    reads the integral literals ([0.0f], [-1.0f], [2.0]); [flt_max] is
    [std::numeric_limits<float>::max()]. *)
Class Scalar (F : Type) : Type := {
  of_Z : Z -> F;
  flt_max : F;
  fneg : F -> F;
  fadd : F -> F -> F;
  fsub : F -> F -> F;
  fmul : F -> F -> F;
  fdiv : F -> F -> F;
  fsqrt : F -> F;
  feqb : F -> F -> bool;
  fltb : F -> F -> bool
}.

Declare Scope scalar_scope.
Delimit Scope scalar_scope with fl.
Notation "x + y" := (fadd x y) : scalar_scope.
Notation "x - y" := (fsub x y) : scalar_scope.
Notation "x * y" := (fmul x y) : scalar_scope.
Notation "x / y" := (fdiv x y) : scalar_scope.
Notation "- x" := (fneg x) : scalar_scope.
Notation "x =? y" := (feqb x y) : scalar_scope.
Notation "x <? y" := (fltb x y) : scalar_scope.
Notation "x >? y" := (fltb y x) : scalar_scope.

(** [openvrml_::fequal<float>] is declared in [private.h], which is not among
    the sources; the merge operations receive it through this interface. *)
Class Fequal (F : Type) : Type := {
  fequal : F -> F -> bool
}.

Section Model.

Context {F : Type} {SF : Scalar F}.
Local Open Scope scalar_scope.

(** Modelled from the spec: private.h's [fequal] is missing; the spec calls it
    a tolerance-based equality, which is rendered here as
    [|a - b| <= tol] for a tolerance [tol] that the spec leaves open. *)
Definition fequal_within (tol : F) : Fequal F :=
  {| fequal := fun a b =>
       let diff := a - b in
       let diff := if diff <? of_Z 0 then - diff else diff in
       negb (tol <? diff) |}.

(** ** Points and matrices *)

(** Modelled from the spec: the point type [vec3f] of basetypes.h is missing;
    three floating-point components, supporting subtraction, dot product,
    scalar division and length. *)
Record vec3f : Type := mk_vec3f { x : F; y : F; z : F }.

Definition vec3f_zero : vec3f := mk_vec3f (of_Z 0) (of_Z 0) (of_Z 0).

Definition vec3f_add (a b : vec3f) : vec3f :=
  mk_vec3f (a.(x) + b.(x)) (a.(y) + b.(y)) (a.(z) + b.(z)).

Definition vec3f_sub (a b : vec3f) : vec3f :=
  mk_vec3f (a.(x) - b.(x)) (a.(y) - b.(y)) (a.(z) - b.(z)).

Definition vec3f_div (a : vec3f) (k : F) : vec3f :=
  mk_vec3f (a.(x) / k) (a.(y) / k) (a.(z) / k).

Definition dot (a b : vec3f) : F :=
  a.(x) * b.(x) + a.(y) * b.(y) + a.(z) * b.(z).

Definition length (a : vec3f) : F := fsqrt (dot a a).

(** Modelled from the spec: the transform type [mat4f] of basetypes.h is
    missing; a 4x4 floating-point matrix, row/column accessible: [t i j] is
    [t[i][j]]. *)
Definition mat4f : Type := nat -> nat -> F.

(** Modelled from the spec: [vec3f::operator*=(const mat4f &)] is missing; the
    transform is applied to the point directly, the point being a row vector
    (so that [t[0][0], t[1][0], t[2][0]], the vector whose length
    [ortho_transform] takes as the scale, holds the coefficients of the new
    [x]) and the translation the fourth row. *)
Definition vec3f_mul_mat4f (p : vec3f) (t : mat4f) : vec3f :=
  mk_vec3f
    (p.(x) * t 0%nat 0%nat + p.(y) * t 1%nat 0%nat + p.(z) * t 2%nat 0%nat + t 3%nat 0%nat)
    (p.(x) * t 0%nat 1%nat + p.(y) * t 1%nat 1%nat + p.(z) * t 2%nat 1%nat + t 3%nat 1%nat)
    (p.(x) * t 0%nat 2%nat + p.(y) * t 1%nat 2%nat + p.(z) * t 2%nat 2%nat + t 3%nat 2%nat).

(** ** The frustum *)

(** Modelled from the spec: [openvrml::frustum] of frustum.h is missing;
    fields [z_near], [z_far] and four plane arrays [[Nx, Ny, Nz, D]], a plane
    array being read by index.  The source reads [z_near] and [z_far] through
    [float(...)]; here they are scalars already. *)
Record frustum : Type := mk_frustum {
  z_near : F;
  z_far : F;
  left_plane : nat -> F;
  right_plane : nat -> F;
  top_plane : nat -> F;
  bot_plane : nat -> F
}.

(** [bounding_volume::intersection] *)
Inductive intersection : Type := inside | outside | partial.

(** ** The bounding sphere *)

Record bounding_sphere : Type := mk_bounding_sphere {
  center_ : vec3f;
  radius_ : F
}.

(** [bounding_sphere::bounding_sphere()]: the radius is the flag [-1.0]; the
    centre is a default-constructed [vec3f], taken as the zero vector. *)
Definition bounding_sphere_new : bounding_sphere :=
  {| center_ := vec3f_zero; radius_ := of_Z (-1) |}.

Definition center (bs : bounding_sphere) : vec3f := bs.(center_).
Definition radius (bs : bounding_sphere) : F := bs.(radius_).

Definition set_center (bs : bounding_sphere) (c : vec3f) : bounding_sphere :=
  {| center_ := c; radius_ := bs.(radius_) |}.

Definition set_radius (bs : bounding_sphere) (r : F) : bounding_sphere :=
  {| center_ := bs.(center_); radius_ := r |}.

Definition maximize (bs : bounding_sphere) : bounding_sphere :=
  {| center_ := mk_vec3f (of_Z 0) (of_Z 0) (of_Z 0); radius_ := flt_max |}.

Definition maximized (bs : bounding_sphere) : bool :=
  if bs.(radius_) =? flt_max then true else false.

(** The test [radius_ == -1.0f] that every operation makes on the flag. *)
Definition unset (bs : bounding_sphere) : bool :=
  bs.(radius_) =? of_Z (-1).

Definition sphere_plane_distance (bs : bounding_sphere) (N : nat -> F) (D : F) : F :=
  let c := center bs in
  N 0%nat * c.(x) + N 1%nat * c.(y) + N 2%nat * c.(z) - D.

(** The two tests made against each plane: [outside] at once when the signed
    distance [d] is below [-radius_], otherwise [code] becomes [partial] when
    [d] is below [radius_], and the remaining planes [k] are tested. *)
Definition plane_test (r d : F) (code : intersection)
    (k : intersection -> intersection) : intersection :=
  if d <? - r then outside
  else k (if d <? r then partial else code).

Definition intersect_frustum (bs : bounding_sphere) (f : frustum) : intersection :=
  if maximized bs then partial
  else if unset bs then partial
  else
    let r := bs.(radius_) in
    let code := inside in
    let znear := - f.(z_near) in
    let d := znear - bs.(center_).(z) in
    plane_test r d code (fun code =>
    let zfar := - f.(z_far) in
    let d := bs.(center_).(z) - zfar in
    plane_test r d code (fun code =>
    let d := sphere_plane_distance bs f.(top_plane) (f.(top_plane) 3%nat) in
    plane_test r d code (fun code =>
    let d := sphere_plane_distance bs f.(bot_plane) (f.(bot_plane) 3%nat) in
    plane_test r d code (fun code =>
    let d := sphere_plane_distance bs f.(left_plane) (f.(left_plane) 3%nat) in
    plane_test r d code (fun code =>
    let d := sphere_plane_distance bs f.(right_plane) (f.(right_plane) 3%nat) in
    plane_test r d code (fun code => code)))))).

Section Merge.

Context {FE : Fequal F}.

(** [bounding_sphere::extend(const vec3f &)] *)
Definition extend_point (bs : bounding_sphere) (p : vec3f) : bounding_sphere :=
  if maximized bs then bs
  else if unset bs then {| center_ := p; radius_ := of_Z 0 |}
  else
    let x0 := bs.(center_).(x) in
    let y0 := bs.(center_).(y) in
    let z0 := bs.(center_).(z) in
    let r0 := bs.(radius_) in
    let x1 := p.(x) in
    let y1 := p.(y) in
    let z1 := p.(z) in
    let xn := x1 - x0 in
    let yn := y1 - y0 in
    let zn := z1 - z0 in
    let dn := fsqrt (xn * xn + yn * yn + zn * zn) in
    if fequal dn (of_Z 0) then bs
    else if dn <? r0 then bs
    else
      let cr := (dn + r0) / of_Z 2 in
      let tmp := (cr - r0) / dn in
      let cx := x0 + xn * tmp in
      let cy := y0 + yn * tmp in
      let cz := z0 + zn * tmp in
      {| center_ := mk_vec3f cx cy cz; radius_ := cr |}.

(** [bounding_sphere::extend(const bounding_sphere &)] *)
Definition extend_sphere (bs b : bounding_sphere) : bounding_sphere :=
  if maximized bs then bs
  else if maximized b then maximize bs
  else if unset b then bs
  else if unset bs then b
  else
    let x0 := bs.(center_).(x) in
    let y0 := bs.(center_).(y) in
    let z0 := bs.(center_).(z) in
    let r0 := bs.(radius_) in
    let x1 := b.(center_).(x) in
    let y1 := b.(center_).(y) in
    let z1 := b.(center_).(z) in
    let r1 := b.(radius_) in
    let xn := x1 - x0 in
    let yn := y1 - y0 in
    let zn := z1 - z0 in
    let dn := fsqrt (xn * xn + yn * yn + zn * zn) in
    if fequal dn (of_Z 0) then bs
    else if dn + r1 <? r0 then bs
    else if dn + r0 <? r1 then b
    else
      let cr := (dn + r0 + r1) / of_Z 2 in
      let tmp := (cr - r0) / dn in
      let cx := x0 + xn * tmp in
      let cy := y0 + yn * tmp in
      let cz := z0 + zn * tmp in
      {| center_ := mk_vec3f cx cy cz; radius_ := cr |}.

(** The placeholder class [axis_aligned_bounding_box] has no state. *)
Inductive axis_aligned_bounding_box : Type := mk_axis_aligned_bounding_box.

(** [bounding_sphere::extend(const axis_aligned_bounding_box &)]: the body is
    empty. *)
Definition extend_aabb (bs : bounding_sphere) (bbox : axis_aligned_bounding_box)
    : bounding_sphere := bs.

(** The two classes derived from [bounding_volume]; the [dynamic_cast]s of
    [extend(const bounding_volume &)] become a match on the variant. *)
Inductive bounding_volume : Type :=
| Sphere (bs : bounding_sphere)
| Box (ab : axis_aligned_bounding_box).

(** [bounding_sphere::extend(const bounding_volume &)] *)
Definition extend_volume (this : bounding_sphere) (bv : bounding_volume)
    : bounding_sphere :=
  match bv with
  | Sphere bs => extend_sphere this bs
  | Box ab => extend_aabb this ab
  end.

(** The six points [min_p[0..2]], [max_p[0..2]] that [enclose] tracks. *)
Record extremes : Type := mk_extremes {
  min_p0 : vec3f; min_p1 : vec3f; min_p2 : vec3f;
  max_p0 : vec3f; max_p1 : vec3f; max_p2 : vec3f
}.

(** One iteration of the loop that finds minx, maxx, miny, maxy, minz, maxz. *)
Definition scan_point (e : extremes) (pi : vec3f) : extremes :=
  {| min_p0 := if pi.(x) <? e.(min_p0).(x) then pi else e.(min_p0);
     min_p1 := if pi.(y) <? e.(min_p1).(y) then pi else e.(min_p1);
     min_p2 := if pi.(z) <? e.(min_p2).(z) then pi else e.(min_p2);
     max_p0 := if pi.(x) >? e.(max_p0).(x) then pi else e.(max_p0);
     max_p1 := if pi.(y) >? e.(max_p1).(y) then pi else e.(max_p1);
     max_p2 := if pi.(z) >? e.(max_p2).(z) then pi else e.(max_p2) |}.

(** The sphere [enclose] starts its merge pass from: centred at the midpoint of
    the widest of the three extremal pairs, with the length of that centre as
    radius. *)
Definition seed_sphere (e : extremes) : bounding_sphere :=
  let span := vec3f_sub e.(max_p0) e.(min_p0) in
  let dx := dot span span in
  let span := vec3f_sub e.(max_p1) e.(min_p1) in
  let dy := dot span span in
  let span := vec3f_sub e.(max_p2) e.(min_p2) in
  let dz := dot span span in
  let max_span0 := e.(min_p0) in
  let max_span1 := e.(max_p0) in
  let max_span_dist := dx in
  let '(max_span0, max_span1, max_span_dist) :=
    if dy >? max_span_dist then (e.(min_p1), e.(max_p1), dy)
    else (max_span0, max_span1, max_span_dist) in
  let '(max_span0, max_span1, max_span_dist) :=
    if dz >? max_span_dist then (e.(min_p2), e.(max_p2), dz)
    else (max_span0, max_span1, max_span_dist) in
  let c := vec3f_div (vec3f_add max_span0 max_span1) (of_Z 2) in
  {| center_ := c; radius_ := fsqrt (dot c c) |}.

(** [bounding_sphere::enclose] *)
Definition enclose (this : bounding_sphere) (points : list vec3f)
    : bounding_sphere :=
  let this := bounding_sphere_new in
  match points with
  | [] => this
  | p0 :: rest =>
      let e := fold_left scan_point rest (mk_extremes p0 p0 p0 p0 p0 p0) in
      fold_left extend_point points (seed_sphere e)
  end.

End Merge.

(** [bounding_sphere::ortho_transform] *)
Definition ortho_transform (bs : bounding_sphere) (t : mat4f) : bounding_sphere :=
  if maximized bs then bs
  else if unset bs then bs
  else
    {| center_ := vec3f_mul_mat4f bs.(center_) t;
       radius_ := bs.(radius_) *
                  length (mk_vec3f (t 0%nat 0%nat) (t 1%nat 0%nat) (t 2%nat 0%nat)) |}.

(** [bounding_sphere::transform] *)
Definition transform (bs : bounding_sphere) (t : mat4f) : bounding_sphere :=
  if maximized bs then bs
  else if unset bs then bs
  else
    let x_scale_v := mk_vec3f (t 0%nat 0%nat) (t 1%nat 0%nat) (t 2%nat 0%nat) in
    let y_scale_v := mk_vec3f (t 0%nat 1%nat) (t 1%nat 1%nat) (t 2%nat 1%nat) in
    let z_scale_v := mk_vec3f (t 0%nat 2%nat) (t 1%nat 2%nat) (t 2%nat 2%nat) in
    let scale_x := length x_scale_v in
    let scale_y := length y_scale_v in
    let scale_z := length z_scale_v in
    let max_scale := scale_x in
    let max_scale := if scale_y >? max_scale then scale_y else max_scale in
    let max_scale := if scale_z >? max_scale then scale_z else max_scale in
    {| center_ := vec3f_mul_mat4f bs.(center_) t;
       radius_ := bs.(radius_) * max_scale |}.

End Model.

Arguments vec3f F : clear implicits.
Arguments mat4f F : clear implicits.
Arguments frustum F : clear implicits.
Arguments bounding_sphere F : clear implicits.
Arguments bounding_volume F : clear implicits.
Arguments extremes F : clear implicits.

(** ** Exact real arithmetic *)

Definition Rltb (a b : R) : bool := if Rlt_dec a b then true else false.
Definition Reqb (a b : R) : bool := if Req_dec_T a b then true else false.

(** [FLT_MAX = (2^24 - 1) * 2^104] *)
Definition FLT_MAX_Z : Z := (16777215 * 2 ^ 104)%Z.

#[export] Instance Scalar_R : Scalar R := {|
  of_Z := IZR;
  flt_max := IZR FLT_MAX_Z;
  fneg := Ropp;
  fadd := Rplus;
  fsub := Rminus;
  fmul := Rmult;
  fdiv := Rdiv;
  fsqrt := sqrt;
  feqb := Reqb;
  fltb := Rltb
|}.

(** ** IEEE 754 single precision *)

(** A C++ [float]: precision 24, maximal exponent 128.  Every operation
    rounds to nearest even.  Where the source goes through [double]
    ([float(sqrt(...))], [float((dn + r0) / 2.0)]) the result is the correctly
    rounded single-precision one, a square root or a halving being immune to
    the double rounding. *)
Definition binary32 : Type := spec_float.

Definition b32_of_Z (n : Z) : binary32 := binary_normalize 24 128 n 0 false.

#[export] Instance Scalar_binary32 : Scalar binary32 := {|
  of_Z := b32_of_Z;
  flt_max := S754_finite false 16777215 104;
  fneg := SFopp;
  fadd := SFadd 24 128;
  fsub := SFsub 24 128;
  fmul := SFmul 24 128;
  fdiv := SFdiv 24 128;
  fsqrt := SFsqrt 24 128;
  feqb := SFeqb;
  fltb := SFltb
|}.

(** ** Sequences of public operations *)

Section Operations.

Context {F : Type} {SF : Scalar F} {FE : Fequal F}.

(** The mutating public operations of a bounding sphere. *)
Inductive operation : Type :=
| op_extend_point (p : vec3f F)
| op_extend_volume (bv : bounding_volume F)
| op_enclose (points : list (vec3f F))
| op_transform (t : mat4f F)
| op_ortho_transform (t : mat4f F)
| op_maximize.

Definition apply_operation (bs : bounding_sphere F) (o : operation)
    : bounding_sphere F :=
  match o with
  | op_extend_point p => extend_point bs p
  | op_extend_volume bv => extend_volume bs bv
  | op_enclose points => enclose bs points
  | op_transform t => transform bs t
  | op_ortho_transform t => ortho_transform bs t
  | op_maximize => maximize bs
  end.

(** The sphere reached from the freshly constructed one. *)
Definition run (ops : list operation) : bounding_sphere F :=
  fold_left apply_operation ops bounding_sphere_new.


End Operations.

Arguments operation F : clear implicits.

(** ** Concrete inputs *)

Section Inputs.

Context {F : Type} {SF : Scalar F}.

Definition vec3f_of_Z (a b c : Z) : vec3f F :=
  mk_vec3f (of_Z a) (of_Z b) (of_Z c).

(** The plane array [{a, b, c, d}]. *)
Definition plane_of_Z (a b c d : Z) : nat -> F :=
  fun i =>
    match i with
    | 0%nat => of_Z a
    | 1%nat => of_Z b
    | 2%nat => of_Z c
    | _ => of_Z d
    end.

(** The sphere of radius 1 centred at the origin. *)
Definition unit_sphere : bounding_sphere F :=
  {| center_ := vec3f_of_Z 0 0 0; radius_ := of_Z 1 |}.

(** A frustum with [z_near = 1], [z_far = 10] and the four side planes
    axis-aligned at signed distance 3 from the origin. *)
Definition wide_frustum : frustum F :=
  {| z_near := of_Z 1;
     z_far := of_Z 10;
     left_plane := plane_of_Z 1 0 0 (-3);
     right_plane := plane_of_Z (-1) 0 0 (-3);
     top_plane := plane_of_Z 0 (-1) 0 (-3);
     bot_plane := plane_of_Z 0 1 0 (-3) |}.

(** The matrix of the translation by [d]: the identity with [d] as fourth
    row. *)
Definition translation (d : vec3f F) : mat4f F :=
  fun i j =>
    match i, j with
    | 3%nat, 0%nat => d.(x)
    | 3%nat, 1%nat => d.(y)
    | 3%nat, 2%nat => d.(z)
    | _, _ => if Nat.eqb i j then of_Z 1 else of_Z 0
    end.

(** The matrix of the uniform scaling by [k]. *)
Definition scaling (k : F) : mat4f F :=
  fun i j =>
    if Nat.eqb i j then (if Nat.eqb i 3 then of_Z 1 else k) else of_Z 0.

End Inputs.

(** The tolerance [2^-20] as a [float]. *)
Definition b32_tolerance : binary32 := S754_finite false 8388608 (-43).

(** ** Geometry over the reals *)

(** The distance between two points, as [extend] computes it. *)
Definition dist (a b : vec3f R) : R := length (vec3f_sub b a).

(** The point [q] lies in the closed ball that [bs] describes. *)
Definition in_sphere (bs : bounding_sphere R) (q : vec3f R) : Prop :=
  (dist (center bs) q <= radius bs)%R.

(** Every point of [b] lies in [a]. *)
Definition sphere_contains (a b : bounding_sphere R) : Prop :=
  forall q, in_sphere b q -> in_sphere a q.

(** The point at fraction [k] of the way from [a] to [b]. *)
Definition offset_toward (a b : vec3f R) (k : R) : vec3f R :=
  mk_vec3f (a.(x) + (b.(x) - a.(x)) * k)%R
           (a.(y) + (b.(y) - a.(y)) * k)%R
           (a.(z) + (b.(z) - a.(z)) * k)%R.

(** A point whose length stays below half of [FLT_MAX]: in exact arithmetic
    the sums and distances the merge pass forms from such points stay below
    the sentinel.  (In [float] the squares overflow long before.) *)
Definition in_range (p : vec3f R) : Prop := (length p * 2 < flt_max)%R.

(** A set sphere: non-negative radius below the sentinel, centre in range. *)
Definition sphere_in_range (bs : bounding_sphere R) : Prop :=
  (0 <= radius bs < flt_max)%R /\ in_range (center bs).

(** The six tracked points all satisfy [P]. *)
Definition extremes_all (P : vec3f R -> Prop) (e : extremes R) : Prop :=
  P (min_p0 e) /\ P (min_p1 e) /\ P (min_p2 e)
  /\ P (max_p0 e) /\ P (max_p1 e) /\ P (max_p2 e).


(** ** The frustum's distances and the bounds of the scan *)

Section FrustumDistances.

Context {F : Type} {SF : Scalar F}.
Local Open Scope scalar_scope.

(** The six signed distances that [intersect_frustum] compares with the
    radius, in the order it computes them: near, far, top, bottom, left,
    right. *)
Definition frustum_distances (bs : bounding_sphere F) (f : frustum F) : list F :=
  [ - f.(z_near) - bs.(center_).(z);
    bs.(center_).(z) - - f.(z_far);
    sphere_plane_distance bs f.(top_plane) (f.(top_plane) 3%nat);
    sphere_plane_distance bs f.(bot_plane) (f.(bot_plane) 3%nat);
    sphere_plane_distance bs f.(left_plane) (f.(left_plane) 3%nat);
    sphere_plane_distance bs f.(right_plane) (f.(right_plane) 3%nat) ].

End FrustumDistances.

(** The coordinates of [p] lie between those of the tracked minima and
    maxima, axis by axis. *)
Definition within_extremes (e : extremes R) (p : vec3f R) : Prop :=
  (x (min_p0 e) <= x p <= x (max_p0 e)
   /\ y (min_p1 e) <= y p <= y (max_p1 e)
   /\ z (min_p2 e) <= z p <= z (max_p2 e))%R.

(** ** Signs of radii *)

Section SignDefs.

Context {F : Type} {SF : Scalar F}.
Local Open Scope scalar_scope.

(** The test [!(a < 0)]: [a] is zero, positive, or not a number. *)
Definition not_negative (a : F) : bool := negb (a <? of_Z 0).

(** The radius is the flag [-1.0] or is not negative. *)
Definition radius_well_formed (bs : bounding_sphere F) : bool :=
  unset bs || not_negative bs.(radius_).

(** The sphere an operation merges in, if any, has such a radius. *)
Definition operation_well_formed (o : operation F) : Prop :=
  match o with
  | op_extend_volume (Sphere b) => radius_well_formed b = true
  | _ => True
  end.

End SignDefs.

(** What the radius computations need of the arithmetic: square roots, sums,
    products and halves of numbers that are not negative are not negative,
    [-1.0] is not one of them, and [-1.0 == -1.0]. *)
Class SignLaws (F : Type) {SF : Scalar F} : Prop := {
  sqrt_not_negative : forall a : F, not_negative (fsqrt a) = true;
  add_not_negative : forall a b : F,
    not_negative a = true -> not_negative b = true ->
    not_negative (fadd a b) = true;
  mul_not_negative : forall a b : F,
    not_negative a = true -> not_negative b = true ->
    not_negative (fmul a b) = true;
  half_not_negative : forall a : F,
    not_negative a = true -> not_negative (fdiv a (of_Z 2)) = true;
  zero_not_negative : not_negative (of_Z 0 : F) = true;
  flt_max_not_negative : not_negative (flt_max : F) = true;
  not_negative_not_flag : forall a : F,
    not_negative a = true -> feqb a (of_Z (-1)) = false;
  flag_eq_flag : feqb (of_Z (-1) : F) (of_Z (-1)) = true
}.

Arguments SignLaws F {SF}.

(** ** Shapes and values of single-precision numbers *)

(** A [float] that is a zero, positive, [+inf] or not a number. *)
Definition nonneg_shape (a : binary32) : bool :=
  match a with
  | S754_zero _ => true
  | S754_infinity s => negb s
  | S754_nan => true
  | S754_finite s _ _ => negb s
  end.

(** The same without [-0]. *)
Definition pos_shape (a : binary32) : bool :=
  match a with
  | S754_zero s => negb s
  | S754_infinity s => negb s
  | S754_nan => true
  | S754_finite s _ _ => negb s
  end.

(** The real number that a finite [float] stands for, [m * 2 ^ e] with its
    sign; 0 for the others. *)
Definition b32_to_R (a : binary32) : R :=
  match a with
  | S754_finite s m e =>
      match e with
      | Z0 => IZR (cond_Zopp s (Zpos m))
      | Zpos p => IZR (cond_Zopp s (Zpos m) * 2 ^ Zpos p)
      | Zneg p => (IZR (cond_Zopp s (Zpos m)) / IZR (2 ^ Zpos p))%R
      end
  | _ => 0%R
  end.

Definition vec3f_to_R (v : vec3f binary32) : vec3f R :=
  mk_vec3f (b32_to_R v.(x)) (b32_to_R v.(y)) (b32_to_R v.(z)).

(** The sphere of real space that a sphere of [float]s describes. *)
Definition sphere_to_R (bs : bounding_sphere binary32) : bounding_sphere R :=
  {| center_ := vec3f_to_R bs.(center_); radius_ := b32_to_R bs.(radius_) |}.

(** * Properties *)

Local Open Scope R_scope.

(** ** Comparisons over the reals *)

Lemma Rltb_true (a b : R) : Rltb a b = true <-> a < b.
Proof. unfold Rltb; destruct (Rlt_dec a b); split; intros; congruence || tauto. Qed.

Lemma Rltb_false (a b : R) : Rltb a b = false <-> b <= a.
Proof.
  unfold Rltb; destruct (Rlt_dec a b); split; intros; try congruence; lra.
Qed.

Lemma Reqb_true (a b : R) : Reqb a b = true <-> a = b.
Proof. unfold Reqb; destruct (Req_dec_T a b); split; intros; congruence. Qed.

Lemma Reqb_false (a b : R) : Reqb a b = false <-> a <> b.
Proof. unfold Reqb; destruct (Req_dec_T a b); split; intros; congruence. Qed.

(** Unfolds the arithmetic interface at the instance [R]. *)
Ltac rsimp :=
  cbn [of_Z flt_max fneg fadd fsub fmul fdiv fsqrt feqb fltb Scalar_R] in *.

(** Decide one comparison of the real model from the linear facts at hand. *)
Ltac rcmp_true := apply Rltb_true || apply Reqb_true; rsimp; lra.
Ltac rcmp_false := apply Rltb_false || apply Reqb_false; rsimp; lra.

(** Replaces every comparison of the goal that the linear facts at hand
    decide by its value. *)
Ltac rbool :=
  repeat match goal with
  | |- context [Rltb ?a ?b] =>
      first [ replace (Rltb a b) with false by (symmetry; rcmp_false)
            | replace (Rltb a b) with true by (symmetry; rcmp_true) ]
  | |- context [Reqb ?a ?b] =>
      first [ replace (Reqb a b) with false by (symmetry; rcmp_false)
            | replace (Reqb a b) with true by (symmetry; rcmp_true) ]
  end.

Lemma FLT_MAX_big : 16777215 < IZR FLT_MAX_Z.
Proof. apply IZR_lt. vm_compute. reflexivity. Qed.


(** ** Lengths of vectors of three reals *)

Lemma sqrt_1_0_0 : sqrt (1 * 1 + 0 * 0 + 0 * 0) = 1.
Proof. replace (1 * 1 + 0 * 0 + 0 * 0) with 1 by lra. apply sqrt_1. Qed.

Lemma sqrt_0_0_0 (a b c : R) :
  a = 0 -> b = 0 -> c = 0 -> sqrt (a * a + b * b + c * c) = 0.
Proof.
  intros -> -> ->. replace (0 * 0 + 0 * 0 + 0 * 0) with 0 by lra.
  apply sqrt_0.
Qed.

Lemma sqrt_sq_0_0 (a : R) : 0 <= a -> sqrt (a * a + 0 * 0 + 0 * 0) = a.
Proof.
  intros H. replace (a * a + 0 * 0 + 0 * 0) with (a * a) by ring.
  now apply sqrt_square.
Qed.

Lemma sqrt3_ext (a b c a' b' c' : R) :
  a = a' -> b = b' -> c = c' ->
  sqrt (a * a + b * b + c * c) = sqrt (a' * a' + b' * b' + c' * c').
Proof. now intros -> -> ->. Qed.

Lemma sqrt3_sq (a b c : R) :
  sqrt (a * a + b * b + c * c) * sqrt (a * a + b * b + c * c)
  = a * a + b * b + c * c.
Proof. apply sqrt_sqrt. nra. Qed.

Lemma cauchy_schwarz3 (a b c a' b' c' : R) :
  (a * a' + b * b' + c * c') * (a * a' + b * b' + c * c')
  <= (a * a + b * b + c * c) * (a' * a' + b' * b' + c' * c').
Proof.
  pose proof (Rle_0_sqr (a * b' - a' * b)) as H1.
  pose proof (Rle_0_sqr (a * c' - a' * c)) as H2.
  pose proof (Rle_0_sqr (b * c' - b' * c)) as H3.
  unfold Rsqr in *. lra.
Qed.

Lemma sqrt3_triangle (a b c a' b' c' : R) :
  sqrt ((a + a') * (a + a') + (b + b') * (b + b') + (c + c') * (c + c'))
  <= sqrt (a * a + b * b + c * c) + sqrt (a' * a' + b' * b' + c' * c').
Proof.
  pose proof (sqrt_pos (a * a + b * b + c * c)) as Hu.
  pose proof (sqrt_pos (a' * a' + b' * b' + c' * c')) as Hv.
  pose proof (sqrt3_sq a b c) as Hu2.
  pose proof (sqrt3_sq a' b' c') as Hv2.
  pose proof (cauchy_schwarz3 a b c a' b' c') as CS.
  set (u := sqrt (a * a + b * b + c * c)) in *.
  set (v := sqrt (a' * a' + b' * b' + c' * c')) in *.
  apply Rsqr_incr_0_var; [|lra].
  unfold Rsqr. rewrite sqrt_sqrt.
  2:{ clear. pose proof (Rle_0_sqr (a + a')); pose proof (Rle_0_sqr (b + b'));
      pose proof (Rle_0_sqr (c + c')). unfold Rsqr in *. lra. }
  assert (0 <= u * v) as Huv by (apply Rmult_le_pos; lra).
  assert (a * a' + b * b' + c * c' <= u * v) as Hdot.
  { destruct (Rle_dec (a * a' + b * b' + c * c') 0) as [Hn|Hp].
    - lra.
    - apply Rsqr_incr_0_var; [|lra]. unfold Rsqr.
      replace (u * v * (u * v)) with ((u * u) * (v * v)) by ring.
      rewrite Hu2, Hv2. exact CS. }
  replace ((u + v) * (u + v)) with (u * u + 2 * (u * v) + v * v) by ring.
  rewrite Hu2, Hv2. lra.
Qed.

Lemma sqrt3_scale (k a b c : R) :
  sqrt ((a * k) * (a * k) + (b * k) * (b * k) + (c * k) * (c * k))
  = Rabs k * sqrt (a * a + b * b + c * c).
Proof.
  replace ((a * k) * (a * k) + (b * k) * (b * k) + (c * k) * (c * k))
    with (Rsqr k * (a * a + b * b + c * c)) by (unfold Rsqr; ring).
  rewrite sqrt_mult_alt by apply Rle_0_sqr.
  now rewrite sqrt_Rsqr_abs.
Qed.

Lemma sqrt3_convex (a b c a' b' c' k : R) :
  0 <= k <= 1 ->
  sqrt ((a * (1 - k) + a' * k) * (a * (1 - k) + a' * k)
        + (b * (1 - k) + b' * k) * (b * (1 - k) + b' * k)
        + (c * (1 - k) + c' * k) * (c * (1 - k) + c' * k))
  <= (1 - k) * sqrt (a * a + b * b + c * c)
     + k * sqrt (a' * a' + b' * b' + c' * c').
Proof.
  intros Hk.
  pose proof (sqrt3_scale (1 - k) a b c) as H1.
  pose proof (sqrt3_scale k a' b' c') as H2.
  rewrite Rabs_pos_eq in H1, H2 by lra.
  rewrite <- H1, <- H2. apply sqrt3_triangle.
Qed.

(** ** Distances *)

Lemma dist_unfold (a b : vec3f R) :
  dist a b = sqrt ((x b - x a) * (x b - x a) + (y b - y a) * (y b - y a)
                   + (z b - z a) * (z b - z a)).
Proof. reflexivity. Qed.

Lemma dist_nonneg (a b : vec3f R) : 0 <= dist a b.
Proof. rewrite dist_unfold. apply sqrt_pos. Qed.

Lemma dist_self (a : vec3f R) : dist a a = 0.
Proof. rewrite dist_unfold. apply sqrt_0_0_0; ring. Qed.

Lemma dist_sym (a b : vec3f R) : dist a b = dist b a.
Proof.
  rewrite !dist_unfold.
  transitivity (Rabs (-1) * sqrt ((x a - x b) * (x a - x b)
                  + (y a - y b) * (y a - y b) + (z a - z b) * (z a - z b))).
  - rewrite <- sqrt3_scale. apply sqrt3_ext; ring.
  - replace (Rabs (-1)) with 1 by (unfold Rabs; destruct (Rcase_abs (-1)); lra).
    lra.
Qed.

Lemma dist_triangle (a b c : vec3f R) : dist a c <= dist a b + dist b c.
Proof.
  rewrite !dist_unfold.
  eapply Rle_trans; [|apply sqrt3_triangle].
  apply Req_le, sqrt3_ext; ring.
Qed.

Lemma length_dist (p : vec3f R) : length p = dist vec3f_zero p.
Proof.
  rewrite dist_unfold. unfold length, dot, vec3f_zero. cbn [x y z]. rsimp.
  apply sqrt3_ext; ring.
Qed.

Lemma offset_toward_0 (a b : vec3f R) : offset_toward a b 0 = a.
Proof.
  destruct a as [ax ay az]. unfold offset_toward; cbn [x y z]. f_equal; ring.
Qed.

Lemma offset_toward_1 (a b : vec3f R) : offset_toward a b 1 = b.
Proof.
  destruct b as [bx by' bz]. unfold offset_toward; cbn [x y z]. f_equal; ring.
Qed.

Lemma dist_offset_offset (a b : vec3f R) (k1 k2 : R) :
  dist (offset_toward a b k1) (offset_toward a b k2) = Rabs (k2 - k1) * dist a b.
Proof.
  rewrite !dist_unfold, <- sqrt3_scale. unfold offset_toward; cbn [x y z].
  apply sqrt3_ext; ring.
Qed.

Lemma dist_offset_from (a b : vec3f R) (k : R) :
  dist a (offset_toward a b k) = Rabs k * dist a b.
Proof.
  rewrite !dist_unfold, <- sqrt3_scale. unfold offset_toward; cbn [x y z].
  apply sqrt3_ext; ring.
Qed.

Lemma dist_offset_to (a b : vec3f R) (k : R) :
  dist (offset_toward a b k) b = Rabs (1 - k) * dist a b.
Proof.
  rewrite !dist_unfold, <- sqrt3_scale. unfold offset_toward; cbn [x y z].
  apply sqrt3_ext; ring.
Qed.

Lemma dist_offset_convex (o a b : vec3f R) (k : R) :
  0 <= k <= 1 ->
  dist o (offset_toward a b k) <= (1 - k) * dist o a + k * dist o b.
Proof.
  intros Hk. rewrite !dist_unfold.
  eapply Rle_trans; [|apply sqrt3_convex, Hk].
  apply Req_le, sqrt3_ext; unfold offset_toward; cbn [x y z]; ring.
Qed.

(** A sphere whose centre is within [radius a - radius b] of the centre of [b]
    contains [b]. *)
Lemma sphere_contains_by_centers (a b : bounding_sphere R) :
  dist (center a) (center b) + radius b <= radius a -> sphere_contains a b.
Proof.
  intros H q Hq. unfold in_sphere in *.
  pose proof (dist_triangle (center a) (center b) q). lra.
Qed.

(** ** The merge operations over the reals, past the sentinel tests *)

Lemma unset_nonneg (bs : bounding_sphere R) : 0 <= radius bs -> unset bs = false.
Proof. intros H. unfold unset. unfold radius in H. rcmp_false. Qed.

Lemma extend_point_set (FE : Fequal R) (bs : bounding_sphere R) (p : vec3f R) :
  maximized bs = false -> unset bs = false ->
  extend_point bs p =
    let d := dist (center bs) p in
    if fequal d 0 then bs
    else if Rltb d (radius bs) then bs
    else {| center_ := offset_toward (center bs) p
                         (((d + radius bs) / 2 - radius bs) / d);
            radius_ := (d + radius bs) / 2 |}.
Proof.
  intros Hm Hu. unfold extend_point. rewrite Hm, Hu. reflexivity.
Qed.

Lemma extend_sphere_set (FE : Fequal R) (bs b : bounding_sphere R) :
  maximized bs = false -> maximized b = false ->
  unset bs = false -> unset b = false ->
  extend_sphere bs b =
    let d := dist (center bs) (center b) in
    if fequal d 0 then bs
    else if Rltb (d + radius b) (radius bs) then bs
    else if Rltb (d + radius bs) (radius b) then b
    else {| center_ := offset_toward (center bs) (center b)
                         (((d + radius bs + radius b) / 2 - radius bs) / d);
            radius_ := (d + radius bs + radius b) / 2 |}.
Proof.
  intros Hm Hm' Hu Hu'. unfold extend_sphere. rewrite Hm, Hm', Hu, Hu'.
  reflexivity.
Qed.


Lemma fequal_within_0_exact (d : R) :
  fequal (Fequal := fequal_within 0) d 0 = true <-> d = 0.
Proof.
  unfold fequal, fequal_within. rsimp. split.
  - destruct (Rltb (d - 0) 0) eqn:Hs; intros H; apply negb_true_iff in H;
      apply Rltb_false in H;
      [apply Rltb_true in Hs | apply Rltb_false in Hs]; lra.
  - intros ->. rbool. reflexivity.
Qed.

(** ** The frustum test: sentinels *)

Section FrustumGeneric.

Context {F : Type} {SF : Scalar F}.

Lemma intersect_frustum_maximized (bs : bounding_sphere F) (f : frustum F) :
  maximized bs = true -> intersect_frustum bs f = partial.
Proof. intros H. unfold intersect_frustum. rewrite H. reflexivity. Qed.

Lemma intersect_frustum_unset (bs : bounding_sphere F) (f : frustum F) :
  unset bs = true -> intersect_frustum bs f = partial.
Proof.
  intros H. unfold intersect_frustum. rewrite H.
  destruct (maximized bs); reflexivity.
Qed.

(** C8: for every frustum, a maximized sphere and an unset sphere (radius
    flag -1) both test as [partial]; the answer is reached before any plane is
    looked at, so it is the same whatever the planes hold. *)
Theorem C8_sentinel_spheres_are_partial
    (bs : bounding_sphere F) (f : frustum F) :
  maximized bs = true \/ unset bs = true ->
  intersect_frustum bs f = partial.
Proof.
  intros [H | H].
  - now apply intersect_frustum_maximized.
  - now apply intersect_frustum_unset.
Qed.

End FrustumGeneric.

(** The freshly constructed sphere is unset, a maximized one is maximized, and
    both test as [partial] against the frustum of the single-precision
    model. *)
Lemma C8_sentinel_spheres_are_partial_witness :
  unset (F := binary32) bounding_sphere_new = true
  /\ maximized (F := binary32) (maximize bounding_sphere_new) = true
  /\ intersect_frustum (F := binary32) bounding_sphere_new wide_frustum = partial
  /\ intersect_frustum (F := binary32) (maximize bounding_sphere_new) wide_frustum
     = partial.
Proof.
  split; [reflexivity|]. split; [reflexivity|]. split.
  - apply C8_sentinel_spheres_are_partial. right. reflexivity.
  - apply C8_sentinel_spheres_are_partial. left. reflexivity.
Defined.

(** ** The frustum test on the unit sphere at the origin *)

(** The side planes of [wide_frustum] are at signed distance 3 from the
    origin, and the unit sphere tests as [partial], not [outside]: it touches
    the near plane, [d = -1] is not below [-radius_ = -1], and it is below
    [radius_].  The same value comes out in single precision. *)
Lemma C1_unit_sphere_not_outside :
  (z_near (F := R) wide_frustum = 1
   /\ z_far (F := R) wide_frustum = 10
   /\ 2 < sphere_plane_distance unit_sphere (top_plane wide_frustum)
            (top_plane wide_frustum 3%nat)
   /\ 2 < sphere_plane_distance unit_sphere (bot_plane wide_frustum)
            (bot_plane wide_frustum 3%nat)
   /\ 2 < sphere_plane_distance unit_sphere (left_plane wide_frustum)
            (left_plane wide_frustum 3%nat)
   /\ 2 < sphere_plane_distance unit_sphere (right_plane wide_frustum)
            (right_plane wide_frustum 3%nat))%R
  /\ intersect_frustum (F := R) unit_sphere wide_frustum <> outside
  /\ intersect_frustum (F := binary32) unit_sphere wide_frustum = partial.
Proof.
  split; [|split].
  - unfold sphere_plane_distance, wide_frustum, plane_of_Z, unit_sphere, center,
      vec3f_of_Z; cbn [z_near z_far top_plane bot_plane left_plane right_plane
      center_ x y z]; rsimp.
    repeat split; lra.
  - unfold intersect_frustum, maximized, unset, plane_test, sphere_plane_distance,
      wide_frustum, plane_of_Z, unit_sphere, center, vec3f_of_Z;
      cbn [z_near z_far top_plane bot_plane left_plane right_plane
      center_ radius_ x y z]; rsimp.
    pose proof FLT_MAX_big. rbool. discriminate.
  - vm_compute. reflexivity.
Qed.

(** C1 (amended): the unit sphere at the origin, tested against a frustum
    with [z_near = 1], [z_far = 10] and the four side planes at signed distance
    greater than 2, is [partial]: the near plane is tangent to the sphere, and
    the test against it is strict. *)
Theorem C1_unit_sphere_at_origin_is_partial (f : frustum R) :
  z_near f = 1%R ->
  z_far f = 10%R ->
  (2 < sphere_plane_distance unit_sphere (top_plane f) (top_plane f 3%nat))%R ->
  (2 < sphere_plane_distance unit_sphere (bot_plane f) (bot_plane f 3%nat))%R ->
  (2 < sphere_plane_distance unit_sphere (left_plane f) (left_plane f 3%nat))%R ->
  (2 < sphere_plane_distance unit_sphere (right_plane f) (right_plane f 3%nat))%R ->
  intersect_frustum unit_sphere f = partial.
Proof.
  intros Hn Hf Ht Hb Hl Hr.
  unfold intersect_frustum, maximized, unset, plane_test.
  rewrite Hn, Hf.
  set (dt := sphere_plane_distance _ (top_plane f) _) in *.
  set (db := sphere_plane_distance _ (bot_plane f) _) in *.
  set (dl := sphere_plane_distance _ (left_plane f) _) in *.
  set (dr := sphere_plane_distance _ (right_plane f) _) in *.
  unfold unit_sphere, vec3f_of_Z; cbn [center_ radius_ x y z]; rsimp.
  pose proof FLT_MAX_big. rbool. reflexivity.
Qed.

(** [wide_frustum] is such a frustum. *)
Lemma C1_unit_sphere_at_origin_is_partial_witness :
  intersect_frustum (F := R) unit_sphere wide_frustum = partial.
Proof.
  apply C1_unit_sphere_at_origin_is_partial;
    unfold sphere_plane_distance, wide_frustum, plane_of_Z, unit_sphere, center,
      vec3f_of_Z;
    cbn [z_near z_far top_plane bot_plane left_plane right_plane center_ x y z];
    rsimp; try reflexivity; lra.
Defined.

Lemma b32_of_Z_1 : b32_of_Z 1 = S754_finite false 8388608 (-23).
Proof. vm_compute. reflexivity. Qed.

Lemma b32_of_Z_2 : b32_of_Z 2 = S754_finite false 8388608 (-22).
Proof. vm_compute. reflexivity. Qed.

(** A [float] above 2 is neither below -1 nor below 1. *)
Lemma b32_above_two (d : binary32) :
  SFltb (b32_of_Z 2) d = true ->
  SFltb d (SFopp (b32_of_Z 1)) = false /\ SFltb d (b32_of_Z 1) = false.
Proof.
  rewrite b32_of_Z_1, b32_of_Z_2. unfold SFltb, SFcompare, SFopp.
  destruct d as [s | s | | s m e]; try discriminate.
  - destruct s; intros; try discriminate; split; reflexivity.
  - destruct s; try discriminate.
    destruct (Z.compare_spec (-22) e) as [He | He | He]; try discriminate;
      intros _; (split; [reflexivity|]);
      destruct (Z.compare_spec e (-23)); try lia; reflexivity.
Qed.

(** The same in single precision, for every frustum of [float]s, infinities
    and NaNs included. *)
Lemma intersect_frustum_unit_sphere_binary32 (f : frustum binary32) :
  z_near f = b32_of_Z 1 ->
  z_far f = b32_of_Z 10 ->
  SFltb (b32_of_Z 2)
    (sphere_plane_distance unit_sphere (top_plane f) (top_plane f 3%nat)) = true ->
  SFltb (b32_of_Z 2)
    (sphere_plane_distance unit_sphere (bot_plane f) (bot_plane f 3%nat)) = true ->
  SFltb (b32_of_Z 2)
    (sphere_plane_distance unit_sphere (left_plane f) (left_plane f 3%nat)) = true ->
  SFltb (b32_of_Z 2)
    (sphere_plane_distance unit_sphere (right_plane f) (right_plane f 3%nat)) = true ->
  intersect_frustum unit_sphere f = partial.
Proof.
  intros Hn Hf Ht Hb Hl Hr.
  apply b32_above_two in Ht, Hb, Hl, Hr.
  destruct Ht as [Ht1 Ht2], Hb as [Hb1 Hb2], Hl as [Hl1 Hl2], Hr as [Hr1 Hr2].
  unfold intersect_frustum, plane_test. rewrite Hn, Hf.
  change (radius_ (F := binary32) unit_sphere) with (b32_of_Z 1).
  change (fltb (F := binary32)) with SFltb.
  change (fneg (F := binary32)) with SFopp.
  rewrite Ht1, Ht2, Hb1, Hb2, Hl1, Hl2, Hr1, Hr2.
  reflexivity.
Qed.

(** ** Merging a box *)

Section BoxGeneric.

Context {F : Type} {SF : Scalar F} {FE : Fequal F}.

(** C10: extending a sphere by an axis-aligned box, directly or through the
    dispatch of [extend(const bounding_volume &)], leaves centre and radius
    as they were, whatever the sphere and the box. *)
Theorem C10_extend_by_box_is_identity
    (S : bounding_sphere F) (B : axis_aligned_bounding_box) :
  extend_aabb S B = S
  /\ extend_volume S (Box B) = S
  /\ center (extend_volume S (Box B)) = center S
  /\ radius (extend_volume S (Box B)) = radius S.
Proof. repeat split. Qed.

End BoxGeneric.

(** ** Enclosing a single point *)

Lemma midpoint_self (p : vec3f R) : vec3f_div (vec3f_add p p) (of_Z 2) = p.
Proof.
  destruct p as [px py pz]. unfold vec3f_div, vec3f_add; cbn [x y z]. rsimp.
  f_equal; field.
Qed.

Lemma Rltb_irrefl (a : R) : Rltb a a = false.
Proof. apply Rltb_false. lra. Qed.

(** In exact arithmetic, enclosing a single point [P] gives the sphere centred
    at [P] whose radius is the length of [P]: radius 0 only when [P] is the
    origin.  ([fequal 0 0] matters at the origin alone, where the merge
    would otherwise divide by the distance 0.) *)
Lemma enclose_singleton (FE : Fequal R) (this : bounding_sphere R) (P : vec3f R) :
  length P <> flt_max ->
  fequal 0 0 = true \/ length P <> 0 ->
  enclose this [P] = {| center_ := P; radius_ := length P |}.
Proof.
  intros Hmax Hz.
  unfold enclose, seed_sphere.
  cbn [fold_left min_p0 min_p1 min_p2 max_p0 max_p1 max_p2]. rsimp.
  rewrite !Rltb_irrefl. rewrite midpoint_self.
  unfold length in *. rsimp.
  pose proof (sqrt_pos (dot P P)) as Hpos.
  set (r := sqrt (dot P P)) in *.
  rewrite extend_point_set.
  - cbv zeta. cbn [center radius center_ radius_]. rewrite dist_self.
    destruct (fequal 0 0); [reflexivity|].
    destruct Hz as [Hz | Hz]; [discriminate|].
    replace (Rltb 0 r) with true by (symmetry; rcmp_true). reflexivity.
  - unfold maximized; cbn [radius_]. apply Reqb_false in Hmax.
    rsimp. now rewrite Hmax.
  - apply unset_nonneg. exact Hpos.
Qed.

(** C2 (the code at the failing input): enclosing the single point (1, 0, 0)
    gives the sphere centred at that point with radius 1, the distance of the
    centre from the origin, and not radius 0; this holds in exact arithmetic
    whatever [fequal] is, and in single precision.  Enclosing no point gives
    the unset sphere. *)
Theorem C2_enclose_singleton_has_radius_of_center_length :
  (forall (FE : Fequal R) (this : bounding_sphere R),
      enclose this [vec3f_of_Z 1 0 0]
      = {| center_ := vec3f_of_Z 1 0 0; radius_ := 1%R |})
  /\ enclose (FE := fequal_within b32_tolerance) (F := binary32)
       bounding_sphere_new [vec3f_of_Z 1 0 0]
     = {| center_ := vec3f_of_Z 1 0 0; radius_ := b32_of_Z 1 |}
  /\ (forall (FE : Fequal R) (this : bounding_sphere R),
        enclose this [] = bounding_sphere_new
        /\ unset (enclose this []) = true).
Proof.
  split; [|split].
  - intros FE this.
    assert (length (F := R) (vec3f_of_Z 1 0 0) = 1) as Hlen.
    { unfold length, dot, vec3f_of_Z; cbn [x y z]; rsimp. apply sqrt_1_0_0. }
    rewrite enclose_singleton; rewrite Hlen.
    + reflexivity.
    + rsimp. pose proof FLT_MAX_big. lra.
    + right. lra.
  - vm_compute. reflexivity.
  - intros FE this. split; [reflexivity|].
    unfold enclose, unset, bounding_sphere_new. cbn [radius_]. rcmp_true.
Qed.

(** ** The guards of the merge operations, in any arithmetic *)

Section MergeGuards.

Context {F : Type} {SF : Scalar F} {FE : Fequal F}.
Local Open Scope scalar_scope.

Lemma extend_point_maximized (bs : bounding_sphere F) (p : vec3f F) :
  maximized bs = true -> extend_point bs p = bs.
Proof. intros H. unfold extend_point. now rewrite H. Qed.

Lemma extend_point_unset (bs : bounding_sphere F) (p : vec3f F) :
  maximized bs = false -> unset bs = true ->
  extend_point bs p = {| center_ := p; radius_ := of_Z 0 |}.
Proof. intros Hm Hu. unfold extend_point. now rewrite Hm, Hu. Qed.

(** The distance [dn] that both merge operations compute. *)
Lemma extend_point_guards (bs : bounding_sphere F) (p : vec3f F) :
  let xn := p.(x) - bs.(center_).(x) in
  let yn := p.(y) - bs.(center_).(y) in
  let zn := p.(z) - bs.(center_).(z) in
  let dn := fsqrt (xn * xn + yn * yn + zn * zn) in
  maximized bs = false -> unset bs = false ->
  fequal dn (of_Z 0) = true \/ (dn <? bs.(radius_)) = true ->
  extend_point bs p = bs.
Proof.
  intros xn yn zn dn Hm Hu Hc. unfold extend_point. rewrite Hm, Hu.
  fold xn yn zn. fold dn.
  destruct (fequal dn (of_Z 0)); [reflexivity|].
  destruct Hc as [Hc | Hc]; [discriminate|]. now rewrite Hc.
Qed.

Lemma extend_sphere_other_unset (bs b : bounding_sphere F) :
  maximized bs = false -> maximized b = false -> unset b = true ->
  extend_sphere bs b = bs.
Proof. intros Hm Hm' Hu'. unfold extend_sphere. now rewrite Hm, Hm', Hu'. Qed.

Lemma extend_sphere_this_unset (bs b : bounding_sphere F) :
  maximized bs = false -> maximized b = false -> unset b = false ->
  unset bs = true ->
  extend_sphere bs b = b.
Proof.
  intros Hm Hm' Hu' Hu. unfold extend_sphere. now rewrite Hm, Hm', Hu', Hu.
Qed.

Lemma extend_sphere_other_maximized (bs b : bounding_sphere F) :
  maximized bs = false -> maximized b = true ->
  extend_sphere bs b = maximize bs.
Proof. intros Hm Hm'. unfold extend_sphere. now rewrite Hm, Hm'. Qed.

End MergeGuards.

(** ** Merging a point *)

Lemma dist_on_x_axis (a b : R) :
  a <= b -> dist (mk_vec3f a 0 0) (mk_vec3f b 0 0) = b - a.
Proof.
  intros H. rewrite dist_unfold; cbn [x y z].
  replace (0 - 0) with 0 by ring. apply sqrt_sq_0_0. lra.
Qed.

Lemma unit_sphere_set :
  maximized (F := R) unit_sphere = false /\ unset (F := R) unit_sphere = false.
Proof.
  unfold maximized, unset, unit_sphere; cbn [radius_]. rsimp.
  pose proof FLT_MAX_big. rbool. split; reflexivity.
Qed.




(** ** Merging a sphere *)

(** What the merge formula aims at.  In exact real arithmetic, two set,
    non-maximized spheres at non-zero centre distance [d], neither of which
    contains the other, merge into the sphere of radius [(d + r0 + r1) / 2]
    whose centre is offset from [c0] toward [c1] by the fraction
    [((d + r0 + r1) / 2 - r0) / d]; that sphere contains both, and every
    sphere that contains both has at least that radius. *)
Lemma merged_sphere_is_minimal_exact (FE : Fequal R) (s0 s1 : bounding_sphere R) :
  let d := dist (center s0) (center s1) in
  let r := (d + radius s0 + radius s1) / 2 in
  maximized s0 = false -> maximized s1 = false ->
  0 <= radius s0 -> 0 <= radius s1 ->
  d <> 0 -> fequal d 0 = false ->
  radius s0 <= d + radius s1 -> radius s1 <= d + radius s0 ->
  radius (extend_sphere s0 s1) = r
  /\ center (extend_sphere s0 s1)
     = offset_toward (center s0) (center s1) ((r - radius s0) / d)
  /\ sphere_contains (extend_sphere s0 s1) s0
  /\ sphere_contains (extend_sphere s0 s1) s1
  /\ forall s' : bounding_sphere R,
       sphere_contains s' s0 -> sphere_contains s' s1 -> r <= radius s'.
Proof.
  intros d r Hm0 Hm1 Hr0 Hr1 Hd Hfe Hle0 Hle1.
  pose proof (dist_nonneg (center s0) (center s1)) as Hd0. fold d in Hd0.
  assert (0 < d) as Hdpos by lra.
  rewrite extend_sphere_set by auto using unset_nonneg.
  cbv zeta. fold d. rewrite Hfe. rbool. fold r.
  set (k := (r - radius s0) / d).
  assert (k * d = r - radius s0) as Hk by (unfold k; field; lra).
  assert (0 <= k) as Hk0.
  { unfold k. apply Rmult_le_pos; [unfold r; lra|].
    apply Rlt_le, Rinv_0_lt_compat, Hdpos. }
  assert (0 <= 1 - k) as Hk1.
  { apply Rmult_le_reg_r with d; [exact Hdpos|].
    replace ((1 - k) * d) with (d - k * d) by ring. rewrite Hk. unfold r. lra. }
  split; [reflexivity|]. split; [reflexivity|]. split; [|split].
  - apply sphere_contains_by_centers. cbn [center radius center_ radius_].
    rewrite dist_sym. fold (center s0). rewrite dist_offset_from.
    rewrite Rabs_pos_eq by exact Hk0. fold d. fold (radius s0). lra.
  - apply sphere_contains_by_centers. cbn [center radius center_ radius_].
    fold (center s0) (center s1). rewrite dist_offset_to.
    rewrite Rabs_pos_eq by exact Hk1. fold d. fold (radius s1).
    replace ((1 - k) * d) with (d - k * d) by ring. rewrite Hk. unfold r. lra.
  - intros s' H0 H1.
    set (q0 := offset_toward (center s0) (center s1) (- (radius s0 / d))).
    set (q1 := offset_toward (center s0) (center s1) (1 + radius s1 / d)).
    assert (in_sphere s0 q0) as Hq0.
    { unfold in_sphere, q0. rewrite dist_offset_from. fold d.
      rewrite Rabs_Ropp, Rabs_pos_eq.
      - apply Req_le. field. lra.
      - apply Rmult_le_pos; [lra|]. apply Rlt_le, Rinv_0_lt_compat, Hdpos. }
    assert (in_sphere s1 q1) as Hq1.
    { unfold in_sphere, q1. rewrite dist_sym, dist_offset_to. fold d.
      replace (1 - (1 + radius s1 / d)) with (- (radius s1 / d)) by ring.
      rewrite Rabs_Ropp, Rabs_pos_eq.
      - apply Req_le. field. lra.
      - apply Rmult_le_pos; [lra|]. apply Rlt_le, Rinv_0_lt_compat, Hdpos. }
    apply H0 in Hq0. apply H1 in Hq1. unfold in_sphere in Hq0, Hq1.
    pose proof (dist_triangle q0 (center s') q1) as Ht.
    rewrite (dist_sym q0 (center s')) in Ht.
    assert (dist q0 q1 = d + radius s0 + radius s1) as Hq.
    { unfold q0, q1. rewrite dist_offset_offset. fold d.
      rewrite Rabs_pos_eq.
      - field. lra.
      - replace (1 + radius s1 / d - - (radius s0 / d))
          with ((d + radius s0 + radius s1) * / d) by (field; lra).
        apply Rmult_le_pos; [lra|]. apply Rlt_le, Rinv_0_lt_compat, Hdpos. }
    unfold r. lra.
Qed.

Lemma maximized_maximize (bs : bounding_sphere R) : maximized (maximize bs) = true.
Proof. unfold maximized, maximize; cbn [radius_]. rsimp. now rbool. Qed.

(** In exact real arithmetic the strict tests of [extend(sphere)] can be read
    as containment: at non-zero centre distance [d], [A] is left as it is when
    [d + B.radius <= A.radius] and becomes [B] when
    [d + A.radius <= B.radius], the merge formula giving the containing sphere
    back when the two sides are equal. *)
Lemma extend_sphere_cases_exact (FE : Fequal R) (A B : bounding_sphere R) :
  let d := dist (center A) (center B) in
  (maximized A = true -> extend_sphere A B = A)
  /\ (maximized A = false -> maximized B = true ->
      extend_sphere A B = maximize A /\ maximized (extend_sphere A B) = true)
  /\ (maximized A = false -> maximized B = false -> unset B = true ->
      extend_sphere A B = A)
  /\ (maximized A = false -> maximized B = false -> unset B = false ->
      unset A = true ->
      extend_sphere A B = B)
  /\ (maximized A = false -> maximized B = false -> unset B = false ->
      unset A = false ->
      d <> 0 -> fequal d 0 = false -> d + radius B <= radius A ->
      extend_sphere A B = A)
  /\ (maximized A = false -> maximized B = false -> unset B = false ->
      unset A = false ->
      d <> 0 -> fequal d 0 = false -> d + radius A <= radius B ->
      extend_sphere A B = B).
Proof.
  intros d.
  pose proof (dist_nonneg (center A) (center B)) as Hd0. fold d in Hd0.
  repeat apply conj.
  - intros Hm. unfold extend_sphere. now rewrite Hm.
  - intros Hm Hm'. rewrite extend_sphere_other_maximized by assumption.
    split; [reflexivity | apply maximized_maximize].
  - apply extend_sphere_other_unset.
  - apply extend_sphere_this_unset.
  - intros Hm Hm' Hu' Hu Hd Hfe Hle.
    rewrite extend_sphere_set by assumption. cbv zeta. fold d. rewrite Hfe.
    destruct (Rltb (d + radius B) (radius A)) eqn:Hlt; [reflexivity|].
    apply Rltb_false in Hlt. assert (radius A = d + radius B) as HA by lra.
    rbool.
    replace (((d + radius A + radius B) / 2 - radius A) / d) with 0
      by (rewrite HA; field; lra).
    rewrite offset_toward_0.
    replace ((d + radius A + radius B) / 2) with (radius A) by lra.
    now destruct A.
  - intros Hm Hm' Hu' Hu Hd Hfe Hle.
    rewrite extend_sphere_set by assumption. cbv zeta. fold d. rewrite Hfe.
    rbool.
    destruct (Rltb (d + radius A) (radius B)) eqn:Hlt; [reflexivity|].
    apply Rltb_false in Hlt. assert (radius B = d + radius A) as HB by lra.
    replace (((d + radius A + radius B) / 2 - radius A) / d) with 1
      by (rewrite HB; field; lra).
    rewrite offset_toward_1.
    replace ((d + radius A + radius B) / 2) with (radius B) by lra.
    now destruct B.
Qed.

(** ** Enclosing a list of points *)

Lemma in_range_offset (a b : vec3f R) (k : R) :
  0 <= k <= 1 -> in_range a -> in_range b -> in_range (offset_toward a b k).
Proof.
  unfold in_range. rewrite !length_dist. intros Hk Ha Hb.
  pose proof (@dist_offset_convex vec3f_zero a b k Hk) as H.
  set (m := flt_max) in *.
  set (da := dist vec3f_zero a) in *. set (db := dist vec3f_zero b) in *.
  destruct (Rle_lt_dec k (1 / 2)) as [Hs | Hs].
  - assert ((1 - k) * (da * 2) < (1 - k) * m) by (apply Rmult_lt_compat_l; lra).
    assert (k * (db * 2) <= k * m) by (apply Rmult_le_compat_l; lra).
    lra.
  - assert ((1 - k) * (da * 2) <= (1 - k) * m) by (apply Rmult_le_compat_l; lra).
    assert (k * (db * 2) < k * m) by (apply Rmult_lt_compat_l; lra).
    lra.
Qed.

Lemma sphere_in_range_set (bs : bounding_sphere R) :
  sphere_in_range bs -> maximized bs = false /\ unset bs = false.
Proof.
  intros [[H0 H1] _]. unfold maximized, unset, radius in *. rsimp.
  rbool. split; reflexivity.
Qed.

Section Enclosure.

Context {FE : Fequal R}.
Variable tol : R.
Hypothesis tol_nonneg : 0 <= tol.
Hypothesis fequal_zero : fequal 0 0 = true.
Hypothesis fequal_tol : forall d : R, fequal d 0 = true -> d <= tol.

(** What one point merge achieves on a sphere in range: the sphere stays in
    range, it contains the sphere it was, and the point is within [tol] of
    it. *)
Lemma extend_point_step (bs : bounding_sphere R) (p : vec3f R) :
  sphere_in_range bs -> in_range p ->
  sphere_in_range (extend_point bs p)
  /\ dist (center (extend_point bs p)) (center bs) + radius bs
     <= radius (extend_point bs p)
  /\ dist (center (extend_point bs p)) p <= radius (extend_point bs p) + tol.
Proof.
  intros Hs Hp.
  destruct (sphere_in_range_set Hs) as [Hm Hu].
  rewrite extend_point_set by assumption. cbv zeta.
  unfold sphere_in_range, center, radius in *.
  set (c := center_ bs) in *. set (r := radius_ bs) in *.
  set (d := dist c p).
  pose proof (dist_nonneg c p) as Hd. fold d in Hd.
  pose proof (dist_self c) as Hself.
  destruct Hs as [[Hr0 Hr1] Hc].
  assert (d < flt_max) as Hdm.
  { pose proof (dist_triangle c vec3f_zero p) as Ht.
    rewrite (dist_sym c vec3f_zero), <- !length_dist in Ht.
    unfold in_range in Hc, Hp. fold d in Ht.
    set (m := flt_max) in *. lra. }
  destruct (fequal d 0) eqn:Hfe.
  { apply fequal_tol in Hfe. fold c r d. repeat split; try assumption; lra. }
  destruct (Rltb d r) eqn:Hlt.
  { apply Rltb_true in Hlt. fold c r d. repeat split; try assumption; lra. }
  apply Rltb_false in Hlt.
  set (r' := (d + r) / 2).
  set (k := (r' - r) / d).
  cbn [center_ radius_].
  assert (0 < d) as Hdpos.
  { destruct (Req_dec d 0) as [Hz | Hnz]; [|lra].
    rewrite Hz, fequal_zero in Hfe. discriminate. }
  assert (k * d = r' - r) as Hkd by (unfold k; field; lra).
  assert (0 <= k <= 1) as Hk.
  { unfold r' in Hkd. split; apply Rmult_le_reg_r with d; lra. }
  split; [split; [split|]|split].
  - unfold r'. lra.
  - unfold r'. set (m := flt_max) in *. lra.
  - apply in_range_offset; assumption.
  - rewrite dist_sym, dist_offset_from. fold d.
    rewrite Rabs_pos_eq by lra. lra.
  - rewrite dist_offset_to. fold d. rewrite Rabs_pos_eq by lra.
    replace ((1 - k) * d) with (d - k * d) by ring. rewrite Hkd. unfold r'. lra.
Qed.

(** The merge pass: the sphere only grows, and every point merged is within
    [tol] of the final sphere. *)
Lemma extend_points_fold (points : list (vec3f R)) :
  forall bs : bounding_sphere R,
    sphere_in_range bs -> Forall in_range points ->
    sphere_in_range (fold_left extend_point points bs)
    /\ dist (center (fold_left extend_point points bs)) (center bs) + radius bs
       <= radius (fold_left extend_point points bs)
    /\ forall p, In p points ->
         dist (center (fold_left extend_point points bs)) p
         <= radius (fold_left extend_point points bs) + tol.
Proof.
  induction points as [|p points IH]; intros bs Hs Hall; cbn [fold_left].
  - split; [exact Hs|]. split; [rewrite dist_self; lra|]. intros p [].
  - inversion Hall as [|? ? Hp Hps]; subst.
    destruct (extend_point_step Hs Hp) as (Hs1 & Hg1 & Hc1).
    destruct (IH _ Hs1 Hps) as (Hs' & Hg' & Hc').
    set (s1 := extend_point bs p) in *.
    set (s' := fold_left extend_point points s1) in *.
    split; [exact Hs'|]. split.
    + pose proof (dist_triangle (center s') (center s1) (center bs)).
      unfold center, radius in *. lra.
    + intros q [<- | Hq].
      * pose proof (dist_triangle (center s') (center s1) p).
        unfold center, radius in *. lra.
      * now apply Hc'.
Qed.

End Enclosure.

Lemma scan_point_all (P : vec3f R -> Prop) (e : extremes R) (pi : vec3f R) :
  extremes_all P e -> P pi -> extremes_all P (scan_point e pi).
Proof.
  intros (H1 & H2 & H3 & H4 & H5 & H6) Hpi.
  unfold extremes_all, scan_point;
    cbn [min_p0 min_p1 min_p2 max_p0 max_p1 max_p2].
  repeat split;
    match goal with |- P (if ?b then _ else _) => destruct b; assumption end.
Qed.

Lemma scan_points_all (P : vec3f R -> Prop) (points : list (vec3f R)) :
  forall e : extremes R,
    extremes_all P e -> Forall P points ->
    extremes_all P (fold_left scan_point points e).
Proof.
  induction points as [|p points IH]; intros e He Hall; cbn [fold_left].
  - exact He.
  - inversion Hall; subst. apply IH; [apply scan_point_all|]; assumption.
Qed.

Lemma midpoint_in_range (a b : vec3f R) :
  in_range a -> in_range b ->
  in_range (vec3f_div (vec3f_add a b) (of_Z 2)).
Proof.
  intros Ha Hb.
  assert (0 <= 1 / 2 <= 1) as Hk by lra.
  pose proof (in_range_offset Hk Ha Hb) as H.
  unfold in_range in *. rewrite length_dist in *.
  rewrite dist_unfold in *.
  erewrite sqrt3_ext; [exact H | | |];
    unfold vec3f_div, vec3f_add, offset_toward, vec3f_zero; cbn [x y z]; rsimp;
    field.
Qed.

(** The seed sphere is set and in range when the tracked points are. *)
Lemma seed_sphere_in_range (e : extremes R) :
  extremes_all in_range e -> sphere_in_range (seed_sphere e).
Proof.
  intros (H1 & H2 & H3 & H4 & H5 & H6).
  assert (forall a b, in_range a -> in_range b ->
            sphere_in_range
              {| center_ := vec3f_div (vec3f_add a b) (of_Z 2);
                 radius_ := fsqrt (dot (vec3f_div (vec3f_add a b) (of_Z 2))
                                       (vec3f_div (vec3f_add a b) (of_Z 2))) |})
    as Hmid.
  { intros a b Ha Hb. pose proof (midpoint_in_range Ha Hb) as Hc.
    split; [|exact Hc]. unfold radius; cbn [radius_].
    unfold in_range, length in Hc.
    pose proof (sqrt_pos (dot (vec3f_div (vec3f_add a b) (of_Z 2))
                              (vec3f_div (vec3f_add a b) (of_Z 2)))) as Hpos.
    rsimp. set (m := IZR FLT_MAX_Z) in *. lra. }
  unfold seed_sphere.
  destruct (fltb _ _); destruct (fltb _ _); apply Hmid; assumption.
Qed.

(** What the merge pass aims at.  In exact real arithmetic every point of a
    list in range is within [tol] of the sphere that [enclose] builds, when
    [fequal d 0] holds at 0 and for no distance above [tol]. *)
Lemma enclose_covers_within (FE : Fequal R) (tol : R)
    (this : bounding_sphere R) (points : list (vec3f R)) :
  0 <= tol ->
  fequal 0 0 = true ->
  (forall d : R, fequal d 0 = true -> d <= tol) ->
  Forall in_range points ->
  forall p, In p points ->
    dist (center (enclose this points)) p <= radius (enclose this points) + tol.
Proof.
  intros Htol Hz Hfe Hall p Hp.
  destruct points as [|p0 rest]; [destruct Hp|].
  unfold enclose.
  inversion Hall as [|? ? Hp0 Hrest]; subst.
  assert (sphere_in_range
            (seed_sphere (fold_left scan_point rest
                            (mk_extremes p0 p0 p0 p0 p0 p0)))) as Hseed.
  { apply seed_sphere_in_range, scan_points_all; [|exact Hrest].
    repeat split; exact Hp0. }
  destruct (@extend_points_fold FE tol Htol Hz Hfe (p0 :: rest) _ Hseed Hall)
    as (_ & _ & H).
  now apply H.
Qed.

(** ** Transforming by a translation *)

(** C9: on a set, non-maximized sphere, [ortho_transform] by the matrix of a
    pure translation keeps the radius and moves the centre by exactly the
    translation vector; on a maximized or unset sphere, [ortho_transform]
    changes nothing, whatever the matrix. *)
Theorem C9_ortho_transform_translation (bs : bounding_sphere R) (d : vec3f R) :
  (maximized bs = false -> unset bs = false ->
   ortho_transform bs (translation d)
   = {| center_ := vec3f_add (center bs) d; radius_ := radius bs |})
  /\ (forall t : mat4f R,
        maximized bs = true \/ unset bs = true -> ortho_transform bs t = bs).
Proof.
  split.
  - intros Hm Hu. unfold ortho_transform. rewrite Hm, Hu.
    unfold vec3f_mul_mat4f, translation, length, dot, vec3f_add, center, radius.
    cbn [Nat.eqb x y z]. rsimp. rewrite sqrt_1_0_0.
    f_equal; [f_equal|]; ring.
  - intros t [H | H]; unfold ortho_transform; rewrite H; [reflexivity|].
    now destruct (maximized bs).
Qed.

(** The unit sphere at the origin moved by (1, 2, 3), and the unset sphere
    left alone. *)
Lemma C9_ortho_transform_translation_witness :
  ortho_transform (F := R) unit_sphere (translation (mk_vec3f 1 2 3))
  = {| center_ := mk_vec3f 1 2 3; radius_ := 1 |}
  /\ ortho_transform (F := R) bounding_sphere_new (translation (mk_vec3f 1 2 3))
     = bounding_sphere_new.
Proof.
  destruct (C9_ortho_transform_translation unit_sphere (mk_vec3f 1 2 3))
    as [H1 _].
  destruct (C9_ortho_transform_translation bounding_sphere_new (mk_vec3f 1 2 3))
    as [_ H2].
  destruct unit_sphere_set as [Hm Hu].
  split.
  - rewrite (H1 Hm Hu).
    unfold vec3f_add, center, radius, unit_sphere, vec3f_of_Z;
      cbn [center_ radius_ x y z]; rsimp.
    f_equal. f_equal; ring.
  - apply H2. right. unfold unset, bounding_sphere_new; cbn [radius_].
    rcmp_true.
Defined.

(** ** The maximized sentinel *)

Section Sentinel.

Context {F : Type} {SF : Scalar F} {FE : Fequal F}.
Hypothesis flt_max_eq : feqb (flt_max (F := F)) flt_max = true.






End Sentinel.



(** ** The witnesses' inputs in single precision *)

(** Merges, an enclosure and a translation on small inputs, as the code
    computes them on [float]. *)
Lemma examples_binary32 :
  let FE := fequal_within b32_tolerance in
  extend_point (F := binary32) unit_sphere (vec3f_of_Z 3 0 0)
  = {| center_ := vec3f_of_Z 1 0 0; radius_ := of_Z 2 |}
  /\ extend_sphere (F := binary32) unit_sphere
       {| center_ := vec3f_of_Z 4 0 0; radius_ := of_Z 1 |}
     = {| center_ := vec3f_of_Z 2 0 0; radius_ := of_Z 3 |}
  /\ extend_sphere (F := binary32)
       {| center_ := vec3f_of_Z 0 0 0; radius_ := of_Z 5 |}
       {| center_ := vec3f_of_Z 1 0 0; radius_ := of_Z 1 |}
     = {| center_ := vec3f_of_Z 0 0 0; radius_ := of_Z 5 |}
  /\ extend_sphere (F := binary32)
       {| center_ := vec3f_of_Z 1 0 0; radius_ := of_Z 1 |}
       {| center_ := vec3f_of_Z 0 0 0; radius_ := of_Z 5 |}
     = {| center_ := vec3f_of_Z 0 0 0; radius_ := of_Z 5 |}
  /\ enclose (F := binary32) bounding_sphere_new
       [vec3f_of_Z 2 0 0; vec3f_of_Z 4 0 0]
     = {| center_ := vec3f_of_Z 3 0 0; radius_ := of_Z 3 |}
  /\ ortho_transform (F := binary32) unit_sphere (translation (vec3f_of_Z 1 2 3))
     = {| center_ := vec3f_of_Z 1 2 3; radius_ := of_Z 1 |}.
Proof. cbv zeta. repeat split; vm_compute; reflexivity. Qed.

(** * Further properties of the operations *)

(** ** The frustum test read through its six distances *)

Lemma existsb_none (A : Type) (f : A -> bool) (l : list A) :
  existsb f l = false -> forall a, In a l -> f a = false.
Proof.
  intros H a Ha. destruct (f a) eqn:E; [|reflexivity].
  assert (existsb f l = true) by (apply existsb_exists; eauto).
  congruence.
Qed.

Lemma existsb_never (A : Type) (f : A -> bool) (l : list A) :
  (forall a, f a = false) -> existsb f l = false.
Proof.
  intros H. induction l as [|a l IH]; cbn [existsb]; [reflexivity|].
  now rewrite H, IH.
Qed.

Section FrustumOrder.

Context {F : Type} {SF : Scalar F}.
Local Open Scope scalar_scope.

(** Past the two sentinel tests, the early returns and the running [code] of
    [intersect_frustum] amount to two searches through the six distances. *)
Lemma intersect_frustum_classify (bs : bounding_sphere F) (f : frustum F) :
  maximized bs = false -> unset bs = false ->
  intersect_frustum bs f =
    if existsb (fun d => d <? - bs.(radius_)) (frustum_distances bs f) then outside
    else if existsb (fun d => d <? bs.(radius_)) (frustum_distances bs f) then partial
    else inside.
Proof.
  intros Hm Hu. unfold intersect_frustum. rewrite Hm, Hu.
  unfold frustum_distances, plane_test. cbn [existsb].
  repeat match goal with
  | |- context [fltb ?a ?b] => destruct (fltb a b); cbn [orb]
  end; reflexivity.
Qed.

(** X1: on a set, non-maximized sphere [intersect_frustum] answers [outside]
    exactly when one of the six distances is below [-radius_], whichever
    plane it is and whatever the planes tested before it gave, and [inside]
    exactly when none of the six is below [-radius_] or below [radius_]. *)
Theorem intersect_frustum_by_distances (bs : bounding_sphere F) (f : frustum F) :
  maximized bs = false -> unset bs = false ->
  (intersect_frustum bs f = outside <->
   exists d, In d (frustum_distances bs f) /\ (d <? - bs.(radius_)) = true)
  /\ (intersect_frustum bs f = inside <->
      forall d, In d (frustum_distances bs f) ->
        (d <? - bs.(radius_)) = false /\ (d <? bs.(radius_)) = false).
Proof.
  intros Hm Hu. rewrite (@intersect_frustum_classify bs f Hm Hu).
  destruct (existsb (fun d => d <? - radius_ bs) (frustum_distances bs f)) eqn:Ho.
  - apply existsb_exists in Ho. split.
    + split; [intros _; exact Ho | reflexivity].
    + split; [discriminate|]. intros H. destruct Ho as (d & Hd & Hlt).
      destruct (H d Hd) as [H1 _]. congruence.
  - pose proof (existsb_none _ _ Ho) as Hno. cbv beta in Hno. split.
    + split.
      * intros H. destruct (existsb _ _) in H; discriminate H.
      * intros (d & Hd & Hlt). rewrite (Hno d Hd) in Hlt. discriminate.
    + destruct (existsb (fun d => d <? radius_ bs) (frustum_distances bs f)) eqn:Hp.
      * split; [discriminate|]. intros H. apply existsb_exists in Hp.
        destruct Hp as (d & Hd & Hlt). destruct (H d Hd) as [_ H2]. congruence.
      * split; [|reflexivity]. intros _ d Hd. split; [now apply Hno|].
        exact (existsb_none _ _ Hp d Hd).
Qed.

End FrustumOrder.

(** The unit sphere against [wide_frustum], in single precision. *)
Lemma intersect_frustum_by_distances_witness :
  (intersect_frustum (F := binary32) unit_sphere wide_frustum = outside <->
   exists d, In d (frustum_distances unit_sphere wide_frustum)
             /\ fltb d (fneg (radius_ unit_sphere)) = true)
  /\ (intersect_frustum (F := binary32) unit_sphere wide_frustum = inside <->
      forall d, In d (frustum_distances unit_sphere wide_frustum) ->
        fltb d (fneg (radius_ unit_sphere)) = false
        /\ fltb d (radius_ unit_sphere) = false).
Proof.
  exact (@intersect_frustum_by_distances binary32 Scalar_binary32
           unit_sphere wide_frustum eq_refl eq_refl).
Defined.

(** ** The frustum test on a radius that is not a number *)

Lemma b32_ltb_nan (d : binary32) : SFltb d S754_nan = false.
Proof. unfold SFltb, SFcompare. destruct d; reflexivity. Qed.

(** X3: in single precision, a sphere whose radius is NaN passes both
    sentinel tests and fails all twelve comparisons, so [intersect_frustum]
    answers [inside] for every centre and every frustum. *)
Theorem intersect_frustum_nan_radius (c : vec3f binary32) (f : frustum binary32) :
  intersect_frustum {| center_ := c; radius_ := S754_nan |} f = inside.
Proof.
  rewrite intersect_frustum_classify by reflexivity.
  cbn [radius_].
  change (fneg (F := binary32) S754_nan) with S754_nan.
  rewrite !existsb_never by (intros d; apply b32_ltb_nan).
  reflexivity.
Qed.

(** ** Merging a point *)

(** A sphere of radius 0 is set and not maximized. *)
Lemma point_sphere_set (p : vec3f R) :
  maximized {| center_ := p; radius_ := 0 |} = false
  /\ unset {| center_ := p; radius_ := 0 |} = false.
Proof.
  unfold maximized, unset; cbn [radius_]; rsimp.
  pose proof FLT_MAX_big. rbool. split; reflexivity.
Qed.

(** X4: on a sphere that is maximized, unset or of non-negative radius,
    [extend(point)] gives the same sphere as [extend(sphere)] with the sphere
    of radius 0 at that point. *)
Theorem extend_point_as_zero_radius_sphere (FE : Fequal R)
    (bs : bounding_sphere R) (p : vec3f R) :
  maximized bs = true \/ unset bs = true \/ 0 <= radius bs ->
  extend_point bs p = extend_sphere bs {| center_ := p; radius_ := 0 |}.
Proof.
  intros Hwf. destruct (point_sphere_set p) as [Hpm Hpu].
  destruct (maximized bs) eqn:Hm.
  { rewrite extend_point_maximized by exact Hm.
    unfold extend_sphere. now rewrite Hm. }
  destruct (unset bs) eqn:Hu.
  { rewrite extend_point_unset by assumption.
    rewrite extend_sphere_this_unset by assumption. reflexivity. }
  destruct Hwf as [Hwf | [Hwf | Hr]]; try discriminate.
  rewrite extend_point_set, extend_sphere_set by assumption.
  cbv zeta. unfold center, radius in *. cbn [center_ radius_].
  set (d := dist (center_ bs) p).
  pose proof (dist_nonneg (center_ bs) p) as Hd. fold d in Hd.
  destruct (fequal d 0); [reflexivity|].
  replace (d + 0) with d by ring.
  destruct (Rltb d (radius_ bs)); [reflexivity|].
  rbool.
  replace (d + radius_ bs + 0) with (d + radius_ bs) by ring.
  reflexivity.
Qed.

(** The unit sphere and the point (3, 0, 0). *)
Lemma extend_point_as_zero_radius_sphere_witness :
  extend_point (FE := fequal_within (1 / 1024))
    {| center_ := mk_vec3f 0 0 0; radius_ := 1 |} (mk_vec3f 3 0 0)
  = extend_sphere (FE := fequal_within (1 / 1024))
      {| center_ := mk_vec3f 0 0 0; radius_ := 1 |}
      {| center_ := mk_vec3f 3 0 0; radius_ := 0 |}.
Proof.
  apply extend_point_as_zero_radius_sphere. right; right.
  unfold radius; cbn [radius_]; lra.
Defined.

(** ** Merging a sphere *)

(** X9: when the two centres coincide, [extend(sphere)] returns at the
    [fequal(d, 0)] test before it compares the radii: the sphere is left as it
    is, so a larger concentric sphere is not enclosed. *)
Theorem extend_sphere_concentric (FE : Fequal R) (A B : bounding_sphere R) :
  maximized A = false -> maximized B = false ->
  unset A = false -> unset B = false ->
  center A = center B -> fequal 0 0 = true ->
  extend_sphere A B = A
  /\ (0 <= radius A < radius B -> ~ sphere_contains (extend_sphere A B) B).
Proof.
  intros HmA HmB HuA HuB Hc Hz.
  assert (extend_sphere A B = A) as E.
  { rewrite extend_sphere_set by assumption. cbv zeta.
    rewrite Hc, dist_self, Hz. reflexivity. }
  split; [exact E|]. rewrite E. intros Hr Hcon.
  set (q := mk_vec3f (x (center B) + radius B) (y (center B)) (z (center B))).
  assert (dist (center B) q = radius B) as Hq.
  { rewrite dist_unfold. unfold q; cbn [x y z].
    replace (x (center B) + radius B - x (center B)) with (radius B) by ring.
    replace (y (center B) - y (center B)) with 0 by ring.
    replace (z (center B) - z (center B)) with 0 by ring.
    apply sqrt_sq_0_0. lra. }
  specialize (Hcon q). unfold in_sphere in Hcon. rewrite Hc, Hq in Hcon.
  assert (radius B <= radius A) by (apply Hcon; lra). lra.
Qed.

(** A sphere with a radius between 0 and [2^24 - 1] is set and not
    maximized. *)
Lemma small_sphere_set (c : vec3f R) (r : R) :
  0 <= r <= 16777215 ->
  maximized {| center_ := c; radius_ := r |} = false
  /\ unset {| center_ := c; radius_ := r |} = false.
Proof.
  intros Hr. unfold maximized, unset; cbn [radius_]; rsimp.
  pose proof FLT_MAX_big. rbool. split; reflexivity.
Qed.

(** The unit sphere extended by the sphere of radius 5 with the same centre
    remains the unit sphere. *)
Lemma extend_sphere_concentric_witness :
  let A := {| center_ := mk_vec3f 0 0 0; radius_ := 1 |} in
  let B := {| center_ := mk_vec3f 0 0 0; radius_ := 5 |} in
  extend_sphere (FE := fequal_within 0) A B = A
  /\ ~ sphere_contains (extend_sphere (FE := fequal_within 0) A B) B.
Proof.
  cbv zeta.
  destruct (@small_sphere_set (mk_vec3f 0 0 0) 1 ltac:(lra)) as [HmA HuA].
  destruct (@small_sphere_set (mk_vec3f 0 0 0) 5 ltac:(lra)) as [HmB HuB].
  destruct (@extend_sphere_concentric (fequal_within 0) _ _ HmA HmB HuA HuB
              eq_refl (proj2 (fequal_within_0_exact 0) eq_refl)) as [H1 H2].
  split; [exact H1|]. apply H2. unfold radius; cbn [radius_]; lra.
Defined.

(** ** Enclosing a list of points *)

Lemma scan_point_within (e : extremes R) (pi p : vec3f R) :
  within_extremes e p \/ p = pi -> within_extremes (scan_point e pi) p.
Proof.
  unfold within_extremes, scan_point;
    cbn [min_p0 min_p1 min_p2 max_p0 max_p1 max_p2]. rsimp.
  intros [H | ->];
    repeat match goal with
    | |- context [Rltb ?a ?b] =>
        let E := fresh "E" in
        destruct (Rltb a b) eqn:E;
        [apply Rltb_true in E | apply Rltb_false in E]
    end; lra.
Qed.

Lemma scan_points_within (rest : list (vec3f R)) :
  forall (e : extremes R) (p : vec3f R),
    within_extremes e p \/ In p rest ->
    within_extremes (fold_left scan_point rest e) p.
Proof.
  induction rest as [|pi rest IH]; intros e p H; cbn [fold_left].
  - destruct H as [H | []]. exact H.
  - apply IH. destruct H as [H | [<- | H]].
    + left. apply scan_point_within. now left.
    + left. apply scan_point_within. now right.
    + now right.
Qed.

(** X12: the scan that opens [enclose] ends with six points of the list, and
    on each axis every point of the list lies between the tracked minimum and
    the tracked maximum. *)
Theorem scan_finds_extremes (p0 : vec3f R) (rest : list (vec3f R)) :
  let e := fold_left scan_point rest (mk_extremes p0 p0 p0 p0 p0 p0) in
  extremes_all (fun a => In a (p0 :: rest)) e
  /\ forall p, In p (p0 :: rest) -> within_extremes e p.
Proof.
  cbv zeta. split.
  - apply scan_points_all.
    + repeat split; now left.
    + apply Forall_forall. intros a Ha. now right.
  - intros p [<- | Hp]; apply scan_points_within.
    + left. unfold within_extremes;
        cbn [min_p0 min_p1 min_p2 max_p0 max_p1 max_p2]. lra.
    + now right.
Qed.

(** * The operations in the arithmetic of the code *)

(** ** Signs in single precision *)

Lemma b32_of_Z_0 : b32_of_Z 0 = S754_zero false.
Proof. reflexivity. Qed.

Lemma b32_of_Z_m1 : b32_of_Z (-1) = S754_finite true 8388608 (-23).
Proof. vm_compute. reflexivity. Qed.

Lemma not_negative_shape (a : binary32) : not_negative a = nonneg_shape a.
Proof.
  unfold not_negative.
  change (fltb a (of_Z 0)) with (SFltb a (b32_of_Z 0)).
  rewrite b32_of_Z_0. unfold SFltb, SFcompare.
  destruct a as [s | s | | s m e]; try destruct s; reflexivity.
Qed.

(** Rounding keeps the sign it is given. *)
Lemma binary_round_aux_shape (mx ex : Z) (lx : location) :
  pos_shape (binary_round_aux 24 128 false mx ex lx) = true.
Proof.
  unfold binary_round_aux.
  destruct (shr_fexp 24 128 mx ex lx) as [mrs' e'].
  destruct (shr_fexp 24 128 _ e' loc_Exact) as [mrs'' e''].
  destruct (shr_m mrs''); [reflexivity | | reflexivity].
  destruct (Z.leb e'' (128 - 24)); reflexivity.
Qed.

Lemma pos_shape_nonneg (a : binary32) :
  pos_shape a = true -> nonneg_shape a = true.
Proof. destruct a as [s | s | | s m e]; try destruct s; auto. Qed.

Lemma binary_round_shape (m : positive) (e : Z) :
  nonneg_shape (binary_round 24 128 false m e) = true.
Proof.
  unfold binary_round.
  destruct (shl_align m e _) as [mz ez].
  apply pos_shape_nonneg, binary_round_aux_shape.
Qed.

Lemma SFadd_shape (a b : binary32) :
  nonneg_shape a = true -> nonneg_shape b = true ->
  nonneg_shape (SFadd 24 128 a b) = true.
Proof.
  destruct a as [sa | sa | | sa ma ea], b as [sb | sb | | sb mb eb];
    try destruct sa; try destruct sb; intros Ha Hb;
    try discriminate Ha; try discriminate Hb; try reflexivity.
  unfold SFadd, cond_Zopp. cbv zeta.
  match goal with
  | |- context [Z.add (Zpos ?p) (Zpos ?q)] =>
      change (Z.add (Zpos p) (Zpos q)) with (Zpos (Pos.add p q))
  end.
  unfold binary_normalize. apply binary_round_shape.
Qed.

Lemma SFmul_shape (a b : binary32) :
  nonneg_shape a = true -> nonneg_shape b = true ->
  nonneg_shape (SFmul 24 128 a b) = true.
Proof.
  destruct a as [sa | sa | | sa ma ea], b as [sb | sb | | sb mb eb];
    try destruct sa; try destruct sb; intros Ha Hb;
    try discriminate Ha; try discriminate Hb; try reflexivity.
  unfold SFmul. change (xorb false false) with false.
  apply pos_shape_nonneg, binary_round_aux_shape.
Qed.

Lemma SFdiv_two_shape (a : binary32) :
  nonneg_shape a = true ->
  nonneg_shape (SFdiv 24 128 a (b32_of_Z 2)) = true.
Proof.
  rewrite b32_of_Z_2.
  destruct a as [sa | sa | | sa ma ea]; try destruct sa; intros Ha;
    try discriminate Ha; try reflexivity.
  unfold SFdiv.
  destruct (SFdiv_core_binary 24 128 _ _ _ _) as [[mz ez] lz].
  change (xorb false false) with false.
  apply pos_shape_nonneg, binary_round_aux_shape.
Qed.

Lemma SFsqrt_shape (a : binary32) : nonneg_shape (SFsqrt 24 128 a) = true.
Proof.
  destruct a as [sa | sa | | sa ma ea]; try destruct sa; try reflexivity.
  unfold SFsqrt.
  destruct (SFsqrt_core_binary 24 128 _ _) as [[mz ez] lz].
  apply pos_shape_nonneg, binary_round_aux_shape.
Qed.

Lemma nonneg_shape_not_flag (a : binary32) :
  nonneg_shape a = true -> SFeqb a (b32_of_Z (-1)) = false.
Proof.
  rewrite b32_of_Z_m1. unfold SFeqb, SFcompare.
  destruct a as [sa | sa | | sa ma ea]; try destruct sa; intros Ha;
    try discriminate Ha; reflexivity.
Qed.

(** Single precision obeys the sign laws, overflow and NaN included. *)
#[export] Instance SignLaws_binary32 : SignLaws binary32.
Proof.
  constructor.
  - intros a. rewrite not_negative_shape. apply SFsqrt_shape.
  - intros a b. rewrite !not_negative_shape. apply SFadd_shape.
  - intros a b. rewrite !not_negative_shape. apply SFmul_shape.
  - intros a. rewrite !not_negative_shape. apply SFdiv_two_shape.
  - reflexivity.
  - reflexivity.
  - intros a. rewrite not_negative_shape. apply nonneg_shape_not_flag.
  - vm_compute. reflexivity.
Qed.

Lemma not_negative_R (a : R) : not_negative a = true <-> 0 <= a.
Proof.
  unfold not_negative. rsimp. rewrite negb_true_iff. apply Rltb_false.
Qed.

(** So do the reals. *)
#[export] Instance SignLaws_R : SignLaws R.
Proof.
  constructor.
  - intros a. apply not_negative_R. rsimp. apply sqrt_pos.
  - intros a b Ha Hb. apply not_negative_R in Ha, Hb.
    apply not_negative_R. rsimp. lra.
  - intros a b Ha Hb. apply not_negative_R in Ha, Hb.
    apply not_negative_R. rsimp. now apply Rmult_le_pos.
  - intros a Ha. apply not_negative_R in Ha.
    apply not_negative_R. rsimp. lra.
  - apply not_negative_R. rsimp. lra.
  - apply not_negative_R. rsimp. pose proof FLT_MAX_big. lra.
  - intros a Ha. apply not_negative_R in Ha. rsimp. apply Reqb_false. lra.
  - rsimp. now apply Reqb_true.
Qed.

(** ** The radius is the flag or not negative *)

Section RadiusSign.

Context {F : Type} {SF : Scalar F} {FE : Fequal F} {SL : SignLaws F}.
Local Open Scope scalar_scope.

Lemma well_formed_set (bs : bounding_sphere F) :
  radius_well_formed bs = true -> unset bs = false ->
  not_negative bs.(radius_) = true.
Proof. unfold radius_well_formed. intros H Hu. now rewrite Hu in H. Qed.

Lemma not_negative_well_formed (bs : bounding_sphere F) :
  not_negative bs.(radius_) = true -> radius_well_formed bs = true.
Proof. unfold radius_well_formed. intros ->. apply orb_true_r. Qed.

Lemma length_not_negative (v : vec3f F) : not_negative (length v) = true.
Proof. apply sqrt_not_negative. Qed.

Lemma extend_point_well_formed (bs : bounding_sphere F) (p : vec3f F) :
  radius_well_formed bs = true -> radius_well_formed (extend_point bs p) = true.
Proof.
  intros Hok. unfold extend_point.
  destruct (maximized bs); [exact Hok|].
  destruct (unset bs) eqn:Hu.
  { apply not_negative_well_formed. apply zero_not_negative. }
  pose proof (well_formed_set bs Hok Hu) as Hr.
  cbv zeta. destruct (fequal _ _); [exact Hok|].
  destruct (fltb _ _); [exact Hok|].
  apply not_negative_well_formed. cbn [radius_].
  apply half_not_negative, add_not_negative;
    [apply sqrt_not_negative | exact Hr].
Qed.

(** A radius that is not negative stays so under point merges. *)
Lemma extend_point_not_negative (bs : bounding_sphere F) (p : vec3f F) :
  not_negative bs.(radius_) = true ->
  not_negative (extend_point bs p).(radius_) = true.
Proof.
  intros Hr. unfold extend_point.
  destruct (maximized bs); [exact Hr|].
  destruct (unset bs); [apply zero_not_negative|].
  cbv zeta. destruct (fequal _ _); [exact Hr|].
  destruct (fltb _ _); [exact Hr|].
  cbn [radius_].
  apply half_not_negative, add_not_negative;
    [apply sqrt_not_negative | exact Hr].
Qed.

Lemma extend_points_not_negative (points : list (vec3f F)) :
  forall bs : bounding_sphere F,
    not_negative bs.(radius_) = true ->
    not_negative (fold_left extend_point points bs).(radius_) = true.
Proof.
  induction points as [|p points IH]; intros bs H; cbn [fold_left].
  - exact H.
  - apply IH, extend_point_not_negative, H.
Qed.

Lemma seed_sphere_not_negative (e : extremes F) :
  not_negative (seed_sphere e).(radius_) = true.
Proof.
  unfold seed_sphere. cbv zeta.
  destruct (fltb _ _); destruct (fltb _ _); cbn [radius_];
    apply sqrt_not_negative.
Qed.

Lemma enclose_not_negative (this : bounding_sphere F) (p0 : vec3f F)
    (rest : list (vec3f F)) :
  not_negative (enclose this (p0 :: rest)).(radius_) = true.
Proof.
  unfold enclose. apply extend_points_not_negative, seed_sphere_not_negative.
Qed.

Lemma extend_sphere_well_formed (A B : bounding_sphere F) :
  radius_well_formed A = true -> radius_well_formed B = true ->
  radius_well_formed (extend_sphere A B) = true.
Proof.
  intros HA HB. unfold extend_sphere.
  destruct (maximized A); [exact HA|].
  destruct (maximized B).
  { apply not_negative_well_formed. apply flt_max_not_negative. }
  destruct (unset B) eqn:HuB; [exact HA|].
  destruct (unset A) eqn:HuA; [exact HB|].
  pose proof (well_formed_set A HA HuA) as HrA.
  pose proof (well_formed_set B HB HuB) as HrB.
  cbv zeta. destruct (fequal _ _); [exact HA|].
  destruct (fltb _ _); [exact HA|].
  destruct (fltb _ _); [exact HB|].
  apply not_negative_well_formed. cbn [radius_].
  apply half_not_negative, add_not_negative; [|exact HrB].
  apply add_not_negative; [apply sqrt_not_negative | exact HrA].
Qed.

Lemma enclose_well_formed (this : bounding_sphere F) (points : list (vec3f F)) :
  radius_well_formed (enclose this points) = true.
Proof.
  destruct points as [|p0 rest].
  - unfold enclose, radius_well_formed, unset, bounding_sphere_new.
    cbn [radius_]. now rewrite flag_eq_flag.
  - apply not_negative_well_formed, enclose_not_negative.
Qed.

Lemma ortho_transform_well_formed (bs : bounding_sphere F) (t : mat4f F) :
  radius_well_formed bs = true ->
  radius_well_formed (ortho_transform bs t) = true.
Proof.
  intros Hok. unfold ortho_transform.
  destruct (maximized bs); [exact Hok|].
  destruct (unset bs) eqn:Hu; [exact Hok|].
  apply not_negative_well_formed. cbn [radius_].
  apply mul_not_negative;
    [exact (well_formed_set bs Hok Hu) | apply length_not_negative].
Qed.

Lemma transform_well_formed (bs : bounding_sphere F) (t : mat4f F) :
  radius_well_formed bs = true ->
  radius_well_formed (transform bs t) = true.
Proof.
  intros Hok. unfold transform.
  destruct (maximized bs); [exact Hok|].
  destruct (unset bs) eqn:Hu; [exact Hok|].
  apply not_negative_well_formed. cbv zeta. cbn [radius_].
  apply mul_not_negative; [exact (well_formed_set bs Hok Hu)|].
  repeat match goal with
  | |- context [fltb ?a ?b] => destruct (fltb a b)
  end; apply length_not_negative.
Qed.

Lemma apply_operation_well_formed (bs : bounding_sphere F) (o : operation F) :
  radius_well_formed bs = true -> operation_well_formed o ->
  radius_well_formed (apply_operation bs o) = true.
Proof.
  intros Hok Ho.
  destruct o as [p | [b | ab] | pts | t | t | ];
    cbn [apply_operation extend_volume operation_well_formed] in *.
  - now apply extend_point_well_formed.
  - now apply extend_sphere_well_formed.
  - exact Hok.
  - apply enclose_well_formed.
  - now apply transform_well_formed.
  - now apply ortho_transform_well_formed.
  - apply not_negative_well_formed. apply flt_max_not_negative.
Qed.

Lemma bounding_sphere_new_well_formed :
  radius_well_formed (bounding_sphere_new (F := F)) = true.
Proof.
  unfold radius_well_formed, unset, bounding_sphere_new. cbn [radius_].
  now rewrite flag_eq_flag.
Qed.

End RadiusSign.

(** X15: in single precision, starting from a fresh sphere, every sequence
    of the public operations leaves a radius that is the flag [-1] or is not
    below zero (zero, positive, [+inf], or NaN after an overflow), provided
    each sphere merged in has such a radius: the radius never becomes a
    negative number other than the flag. *)
Theorem radius_never_negative (FE : Fequal binary32)
    (ops : list (operation binary32)) :
  Forall operation_well_formed ops ->
  radius_well_formed (run ops) = true.
Proof.
  unfold run.
  pose proof (bounding_sphere_new_well_formed (F := binary32)) as H0.
  revert H0. generalize (bounding_sphere_new (F := binary32)).
  induction ops as [|o ops IH]; intros bs Hok Hall; cbn [fold_left].
  - exact Hok.
  - inversion Hall as [|? ? Ho Hops]; subst. apply IH; [|exact Hops].
    now apply apply_operation_well_formed.
Qed.

(** A point, a scaling by [10^30] (which makes the radius [0 * inf], not a
    number), two merges, a scaling, an [enclose] of no point and a merge of
    an unset sphere. *)
Lemma radius_never_negative_witness :
  let ops :=
    [ op_extend_point (vec3f_of_Z 0 0 0);
      op_ortho_transform (scaling (of_Z (10 ^ 30)));
      op_extend_volume
        (Sphere {| center_ := vec3f_of_Z 4 0 0; radius_ := of_Z 1 |});
      op_transform (scaling (of_Z 2));
      op_enclose [];
      op_extend_volume (Sphere bounding_sphere_new) ] in
  radius_well_formed
    (run (F := binary32) (FE := fequal_within b32_tolerance) ops) = true.
Proof.
  cbv zeta. apply radius_never_negative.
  repeat apply Forall_cons; try apply Forall_nil;
    cbn [operation_well_formed]; try exact I; vm_compute; reflexivity.
Defined.

(** ** Enclosing a list of points, in single precision *)


(** Reads the reals off concrete [float]s. *)
Ltac b32_real :=
  unfold sphere_to_R, vec3f_to_R, b32_to_R;
  cbn [center_ radius_ x y z cond_Zopp Z.opp];
  repeat match goal with
  | |- context [IZR (Z.pow ?a ?b)] =>
      let v := eval vm_compute in (Z.pow a b) in
      change (Z.pow a b) with v
  end.


(** ** The merge formula, in any arithmetic *)

Section MergeFormula.

Context {F : Type} {SF : Scalar F} {FE : Fequal F}.
Local Open Scope scalar_scope.

(** C3 (amended): for two set, non-maximized spheres whose centre distance
    [d] is not ~0 ([fequal]) and for which neither test [d + r1 < r0] nor
    [d + r0 < r1] holds, [extend(sphere)] gives the radius
    [(d + r0 + r1) / 2] and the centre offset from [c0] toward [c1] by the
    fraction [((d + r0 + r1) / 2 - r0) / d], each operation being the one of
    the arithmetic at hand: for the code, the rounded one of [float]. *)
Theorem C3_merged_sphere_formula (s0 s1 : bounding_sphere F) :
  let c0 := center s0 in
  let c1 := center s1 in
  let d := length (vec3f_sub c1 c0) in
  let r := (d + radius s0 + radius s1) / of_Z 2 in
  let k := (r - radius s0) / d in
  maximized s0 = false -> maximized s1 = false ->
  unset s0 = false -> unset s1 = false ->
  fequal d (of_Z 0) = false ->
  (d + radius s1 <? radius s0) = false ->
  (d + radius s0 <? radius s1) = false ->
  radius (extend_sphere s0 s1) = r
  /\ center (extend_sphere s0 s1)
     = mk_vec3f (c0.(x) + (c1.(x) - c0.(x)) * k)
                (c0.(y) + (c1.(y) - c0.(y)) * k)
                (c0.(z) + (c1.(z) - c0.(z)) * k).
Proof.
  intros c0 c1 d r k Hm0 Hm1 Hu0 Hu1 Hfe H0 H1.
  unfold extend_sphere. rewrite Hm0, Hm1, Hu1, Hu0. cbv zeta.
  change (fsqrt _) with d. rewrite Hfe.
  change (radius_ s1) with (radius s1). change (radius_ s0) with (radius s0).
  rewrite H0, H1. split; reflexivity.
Qed.

End MergeFormula.

(** In single precision the unit spheres centred at the origin and at
    (4, 0, 0) merge into the sphere of radius 3 centred at (2, 0, 0). *)
Lemma C3_merged_sphere_formula_witness :
  let s1 := {| center_ := vec3f_of_Z 4 0 0; radius_ := of_Z 1 |} in
  let m := extend_sphere (F := binary32) (FE := fequal_within b32_tolerance)
             unit_sphere s1 in
  radius m = of_Z 3 /\ center m = vec3f_of_Z 2 0 0.
Proof.
  cbv zeta.
  pose proof (@C3_merged_sphere_formula binary32 Scalar_binary32
                (fequal_within b32_tolerance) unit_sphere
                {| center_ := vec3f_of_Z 4 0 0; radius_ := of_Z 1 |}) as H.
  cbv zeta in H.
  destruct H as [Hr Hc]; try (vm_compute; reflexivity).
  rewrite Hr, Hc. split; vm_compute; reflexivity.
Defined.

(** In single precision the sphere so built need not contain the spheres it
    merges.  The unit sphere at the origin and the sphere of radius 2 at
    (13, 0, 0) are set, not maximized, at distance 13, and neither contains
    the other; the merge gives the radius 8 and the centre
    [x = 14680065 * 2^-21], just right of 7.  The point (-1, 0, 0) of the
    unit sphere is farther than 8 from that centre. *)
Lemma C3_merged_sphere_misses_first_sphere :
  let s0 := unit_sphere (F := binary32) in
  let s1 := {| center_ := vec3f_of_Z (F := binary32) 13 0 0;
               radius_ := of_Z 2 |} in
  let d := length (vec3f_sub (center s1) (center s0)) in
  let m := extend_sphere (FE := fequal_within b32_tolerance) s0 s1 in
  maximized s0 = false /\ unset s0 = false
  /\ maximized s1 = false /\ unset s1 = false
  /\ d = of_Z 13
  /\ fltb (fadd d (radius s1)) (radius s0) = false
  /\ fltb (fadd d (radius s0)) (radius s1) = false
  /\ m = {| center_ := mk_vec3f (S754_finite false 14680065 (-21))
                                (S754_zero false) (S754_zero false);
            radius_ := of_Z 8 |}
  /\ ~ sphere_contains (sphere_to_R m) (sphere_to_R s0).
Proof.
  cbv zeta.
  assert (extend_sphere (FE := fequal_within b32_tolerance)
            (unit_sphere (F := binary32))
            {| center_ := vec3f_of_Z (F := binary32) 13 0 0;
               radius_ := of_Z 2 |}
          = {| center_ := mk_vec3f (S754_finite false 14680065 (-21))
                                   (S754_zero false) (S754_zero false);
               radius_ := S754_finite false 8388608 (-20) |}) as E
    by (vm_compute; reflexivity).
  repeat (split; [vm_compute; reflexivity|]).
  rewrite E. intros Hc.
  assert (unit_sphere (F := binary32)
          = {| center_ := mk_vec3f (S754_zero false) (S754_zero false)
                                   (S754_zero false);
               radius_ := S754_finite false 8388608 (-23) |}) as Eu
    by (vm_compute; reflexivity).
  rewrite Eu in Hc.
  specialize (Hc (mk_vec3f (-1) 0 0)).
  unfold in_sphere, center, radius in Hc. revert Hc. b32_real.
  rewrite (dist_sym (mk_vec3f 0 0 0) (mk_vec3f (-1) 0 0)).
  rewrite (dist_sym _ (mk_vec3f (-1) 0 0)).
  rewrite !dist_on_x_axis by lra.
  intros Hc. assert (H : 0 - -1 <= IZR 8388608 / IZR 8388608) by lra.
  apply Hc in H. lra.
Qed.

(** ** The cases of [extend(sphere)], in any arithmetic *)

Section SphereCases.

Context {F : Type} {SF : Scalar F} {FE : Fequal F}.
Hypothesis flt_max_eq : feqb (flt_max (F := F)) flt_max = true.
Local Open Scope scalar_scope.

(** C6 (amended): [extend(sphere)] case by case, each case taken when the
    ones before it do not apply.  A maximized [A] is left as it is; a
    maximized [B] makes [A] maximized; an unset [B] leaves [A] as it is; an
    unset [A] becomes a copy of [B]; when the centre distance [d] is not ~0
    ([fequal]), [A] is left as it is if [d + B.radius < A.radius] and becomes
    [B] if [d + A.radius < B.radius].  Both comparisons are the strict ones
    of the code, on the sums as the arithmetic at hand rounds them. *)
Theorem C6_extend_sphere_tests (A B : bounding_sphere F) :
  let d := length (vec3f_sub (center B) (center A)) in
  (maximized A = true -> extend_sphere A B = A)
  /\ (maximized A = false -> maximized B = true ->
      extend_sphere A B = maximize A /\ maximized (extend_sphere A B) = true)
  /\ (maximized A = false -> maximized B = false -> unset B = true ->
      extend_sphere A B = A)
  /\ (maximized A = false -> maximized B = false -> unset B = false ->
      unset A = true ->
      extend_sphere A B = B)
  /\ (maximized A = false -> maximized B = false -> unset B = false ->
      unset A = false ->
      fequal d (of_Z 0) = false -> (d + radius B <? radius A) = true ->
      extend_sphere A B = A)
  /\ (maximized A = false -> maximized B = false -> unset B = false ->
      unset A = false ->
      fequal d (of_Z 0) = false -> (d + radius B <? radius A) = false ->
      (d + radius A <? radius B) = true ->
      extend_sphere A B = B).
Proof.
  intros d. repeat apply conj.
  - intros Hm. unfold extend_sphere. now rewrite Hm.
  - intros Hm Hm'. rewrite extend_sphere_other_maximized by assumption.
    split; [reflexivity|].
    unfold maximized, maximize; cbn [radius_]. now rewrite flt_max_eq.
  - apply extend_sphere_other_unset.
  - apply extend_sphere_this_unset.
  - intros Hm Hm' Hu' Hu Hfe Hlt.
    unfold extend_sphere. rewrite Hm, Hm', Hu', Hu. cbv zeta.
    change (fsqrt _) with d. rewrite Hfe.
    change (radius_ B) with (radius B). change (radius_ A) with (radius A).
    now rewrite Hlt.
  - intros Hm Hm' Hu' Hu Hfe Hge Hlt.
    unfold extend_sphere. rewrite Hm, Hm', Hu', Hu. cbv zeta.
    change (fsqrt _) with d. rewrite Hfe.
    change (radius_ B) with (radius B). change (radius_ A) with (radius A).
    now rewrite Hge, Hlt.
Qed.

End SphereCases.

(** In single precision the sphere of radius 5 at the origin and the unit
    sphere at (1, 0, 0): merging the small one into the large one changes
    nothing, and merging the large one into the small one gives the large
    one. *)
Lemma C6_extend_sphere_tests_witness :
  let A := {| center_ := vec3f_of_Z 0 0 0; radius_ := of_Z 5 |} in
  let B := {| center_ := vec3f_of_Z 1 0 0; radius_ := of_Z 1 |} in
  extend_sphere (F := binary32) (FE := fequal_within b32_tolerance) A B = A
  /\ extend_sphere (F := binary32) (FE := fequal_within b32_tolerance) B A = A.
Proof.
  cbv zeta.
  set (A := {| center_ := vec3f_of_Z (F := binary32) 0 0 0; radius_ := of_Z 5 |}).
  set (B := {| center_ := vec3f_of_Z (F := binary32) 1 0 0; radius_ := of_Z 1 |}).
  split.
  - destruct (@C6_extend_sphere_tests binary32 Scalar_binary32
                (fequal_within b32_tolerance) eq_refl A B)
      as (_ & _ & _ & _ & H & _).
    apply H; vm_compute; reflexivity.
  - destruct (@C6_extend_sphere_tests binary32 Scalar_binary32
                (fequal_within b32_tolerance) eq_refl B A)
      as (_ & _ & _ & _ & _ & H).
    apply H; vm_compute; reflexivity.
Defined.

Lemma sqrt_2_below : sqrt 2 <= 5931642 / 4194304.
Proof.
  apply Rsqr_incr_0_var; [|lra].
  rewrite Rsqr_sqrt by lra. unfold Rsqr. lra.
Qed.

(** In single precision, with [A] the unit sphere at the origin and [B] the
    sphere of radius [10125946 * 2^-22] (the [float] sum of [sqrt 2] and 1)
    at (0, 1, 1): both are set and not maximized, the distance is not ~0,
    [d + A.radius] is not above [B.radius] (the two are equal as [float]s),
    and [B] contains [A] in exact terms.  The strict test fails, the merge
    formula runs, and [A] ends with the centre
    (0, 8388609 * 2^-23, 8388609 * 2^-23): not the sphere [B]. *)
Lemma C6_contained_sphere_at_boundary :
  let A := unit_sphere (F := binary32) in
  let B := {| center_ := vec3f_of_Z (F := binary32) 0 1 1;
              radius_ := S754_finite false 10125946 (-22) |} in
  let d := length (vec3f_sub (center B) (center A)) in
  maximized A = false /\ unset A = false
  /\ maximized B = false /\ unset B = false
  /\ fequal (Fequal := fequal_within b32_tolerance) d (of_Z 0) = false
  /\ fadd d (radius A) = radius B
  /\ fltb (radius B) (fadd d (radius A)) = false
  /\ sphere_contains (sphere_to_R B) (sphere_to_R A)
  /\ extend_sphere (FE := fequal_within b32_tolerance) A B
     = {| center_ := mk_vec3f (S754_zero false)
                              (S754_finite false 8388609 (-23))
                              (S754_finite false 8388609 (-23));
          radius_ := S754_finite false 10125946 (-22) |}
  /\ extend_sphere (FE := fequal_within b32_tolerance) A B <> B.
Proof.
  cbv zeta.
  assert (extend_sphere (FE := fequal_within b32_tolerance)
            (unit_sphere (F := binary32))
            {| center_ := vec3f_of_Z (F := binary32) 0 1 1;
               radius_ := S754_finite false 10125946 (-22) |}
          = {| center_ := mk_vec3f (S754_zero false)
                                   (S754_finite false 8388609 (-23))
                                   (S754_finite false 8388609 (-23));
               radius_ := S754_finite false 10125946 (-22) |}) as E
    by (vm_compute; reflexivity).
  repeat (split; [vm_compute; reflexivity|]).
  split; [|split; [exact E|]].
  - apply sphere_contains_by_centers.
    assert (unit_sphere (F := binary32)
            = {| center_ := mk_vec3f (S754_zero false) (S754_zero false)
                                     (S754_zero false);
                 radius_ := S754_finite false 8388608 (-23) |}) as ->
      by (vm_compute; reflexivity).
    assert (vec3f_of_Z (F := binary32) 0 1 1
            = mk_vec3f (S754_zero false) (S754_finite false 8388608 (-23))
                       (S754_finite false 8388608 (-23))) as ->
      by (vm_compute; reflexivity).
    unfold center, radius. b32_real.
    rewrite dist_unfold; cbn [x y z].
    replace (0 - 0) with 0 by ring.
    replace (0 - IZR 8388608 / IZR 8388608) with (-1) by lra.
    replace (0 * 0 + -1 * -1 + -1 * -1) with 2 by ring.
    pose proof sqrt_2_below. lra.
  - rewrite E. intros H. vm_compute in H. discriminate H.
Qed.

(** ** [transform] and [ortho_transform], in single precision *)

Section Scaling.

Context {F : Type} {SF : Scalar F}.
Local Open Scope scalar_scope.

(** The two functions move the centre alike, and give the same sphere when
    neither the second nor the third column is found longer than the first. *)
Lemma transform_agreement (bs : bounding_sphere F) (t : mat4f F) :
  let sx := length (mk_vec3f (t 0%nat 0%nat) (t 1%nat 0%nat) (t 2%nat 0%nat)) in
  let sy := length (mk_vec3f (t 0%nat 1%nat) (t 1%nat 1%nat) (t 2%nat 1%nat)) in
  let sz := length (mk_vec3f (t 0%nat 2%nat) (t 1%nat 2%nat) (t 2%nat 2%nat)) in
  center (transform bs t) = center (ortho_transform bs t)
  /\ ((sy >? sx) = false -> (sz >? sx) = false ->
      transform bs t = ortho_transform bs t).
Proof.
  intros sx sy sz. unfold transform, ortho_transform. cbv zeta.
  fold sx sy sz.
  destruct (maximized bs); [split; reflexivity|].
  destruct (unset bs); [split; reflexivity|].
  split; [reflexivity|].
  intros Hy Hz. now rewrite Hy, Hz.
Qed.

End Scaling.

Lemma b32_ltb_irrefl (a : binary32) : SFltb a a = false.
Proof.
  unfold SFltb, SFcompare.
  destruct a as [s | s | | s m e]; try destruct s; try reflexivity;
    rewrite Z.compare_refl, Pos.compare_cont_refl; reflexivity.
Qed.

Lemma SFmul_self_shape (k : binary32) : pos_shape (SFmul 24 128 k k) = true.
Proof.
  destruct k as [s | s | | s m e]; try destruct s; try reflexivity;
    unfold SFmul;
    [change (xorb true true) with false | change (xorb false false) with false];
    apply binary_round_aux_shape.
Qed.

Lemma SFadd_zero_r (q : binary32) :
  pos_shape q = true -> SFadd 24 128 q (S754_zero false) = q.
Proof.
  destruct q as [s | s | | s m e]; try destruct s; intros H;
    try discriminate H; reflexivity.
Qed.

Lemma SFadd_zero_l (q : binary32) :
  pos_shape q = true -> SFadd 24 128 (S754_zero false) q = q.
Proof.
  destruct q as [s | s | | s m e]; try destruct s; intros H;
    try discriminate H; reflexivity.
Qed.

(** The three columns of a uniform scaling have the same length as
    [float]s, whatever the factor. *)
Lemma scaling_columns (k : binary32) :
  let t := scaling k in
  length (mk_vec3f (t 0%nat 1%nat) (t 1%nat 1%nat) (t 2%nat 1%nat))
  = length (mk_vec3f (t 0%nat 0%nat) (t 1%nat 0%nat) (t 2%nat 0%nat))
  /\ length (mk_vec3f (t 0%nat 2%nat) (t 1%nat 2%nat) (t 2%nat 2%nat))
     = length (mk_vec3f (t 0%nat 0%nat) (t 1%nat 0%nat) (t 2%nat 0%nat)).
Proof.
  cbv zeta. unfold length, dot, scaling. cbn [Nat.eqb x y z].
  cbn [fadd fmul fsqrt of_Z Scalar_binary32].
  change (SFmul 24 128 (b32_of_Z 0) (b32_of_Z 0)) with (S754_zero false).
  pose proof (SFmul_self_shape k) as Hq.
  rewrite !(SFadd_zero_r _ Hq), !(SFadd_zero_l _ Hq).
  change (SFadd 24 128 (S754_zero false) (S754_zero false))
    with (S754_zero false).
  rewrite !(SFadd_zero_l _ Hq), ?(SFadd_zero_r _ Hq). split; reflexivity.
Qed.

(** X14: in single precision [transform] and [ortho_transform] give the same
    centre; they give the same sphere whenever the code finds neither the
    second nor the third column of the upper 3x3 block longer than the
    first; and they give the same sphere on every uniform scaling, whatever
    the factor (infinite or NaN included) and whatever the sphere. *)
Theorem transform_agrees_with_ortho_transform
    (bs : bounding_sphere binary32) (t : mat4f binary32) :
  let sx := length (mk_vec3f (t 0%nat 0%nat) (t 1%nat 0%nat) (t 2%nat 0%nat)) in
  let sy := length (mk_vec3f (t 0%nat 1%nat) (t 1%nat 1%nat) (t 2%nat 1%nat)) in
  let sz := length (mk_vec3f (t 0%nat 2%nat) (t 1%nat 2%nat) (t 2%nat 2%nat)) in
  center (transform bs t) = center (ortho_transform bs t)
  /\ (fltb sx sy = false -> fltb sx sz = false ->
      transform bs t = ortho_transform bs t)
  /\ (forall k : binary32,
        transform bs (scaling k) = ortho_transform bs (scaling k)).
Proof.
  intros sx sy sz.
  destruct (transform_agreement bs t) as (Hc & Ha).
  split; [exact Hc|]. split; [exact Ha|].
  intros k.
  destruct (transform_agreement bs (scaling k)) as (_ & Hk).
  destruct (scaling_columns k) as [Ey Ez]. cbv zeta in Hk, Ey, Ez.
  apply Hk; [rewrite Ey | rewrite Ez]; apply b32_ltb_irrefl.
Qed.

(** The unit sphere under the translation by (1, 2, 3), whose three columns
    have length 1. *)
Lemma transform_agrees_with_ortho_transform_witness :
  transform (F := binary32) unit_sphere (translation (vec3f_of_Z 1 2 3))
  = ortho_transform unit_sphere (translation (vec3f_of_Z 1 2 3)).
Proof.
  apply (proj1 (proj2 (transform_agrees_with_ortho_transform
                         unit_sphere (translation (vec3f_of_Z 1 2 3)))));
    vm_compute; reflexivity.
Defined.
